(** * AI error analysis engine ([lib/analyze.py]): a shallow embedding

    The development follows the Python module top to bottom: the text
    primitives the module relies on ([str.strip], [str.split], [str.lower],
    [str.startswith], ...), the fragment of [re] used by the patterns of
    [_extract_analysis_fields], the JSON values exchanged with the providers,
    then [AIAnalyzer] itself, and finally the properties of the engine.

    Modelling conventions.
    - A Python [str] is a [text]: a list of code points.  Code points are the
      256 values of [ascii], read as U+0000..U+00FF; whitespace, digits and
      case mapping are those of Python on that range.  A statement over
      [text] speaks of the strings of that alphabet.  Beyond it
      [re.IGNORECASE] reads three more characters as ASCII letters (U+0130
      and U+0131 as [i], U+017F as [s]); the statements that would not hold
      for such replies, those on the severity word, say so.
    - Exceptions are values of [exn]; a function that may raise returns a
      [result].
    - A Python integer is a [Z].  [int(s)] refuses a run of more digits than
      the interpreter's limit, 4300 by default, with a [ValueError].
    - The network and [json.loads] are parameters, with every outcome the
      module can meet: the value, the exceptions it handles, and any other
      exception. *)

From Stdlib Require Import List String Ascii ZArith Lia Bool Arith.
From Stdlib Require QArith DecimalString.
Import ListNotations.

Open Scope string_scope.
Open Scope list_scope.
Open Scope nat_scope.

(** ** Text *)

Definition text := list ascii.

Coercion list_ascii_of_string : string >-> list.

Abbreviation len := (@Datatypes.length _).

Definition nl : ascii := "010"%char.
Definition dq : ascii := "034"%char.

Definition text_eqb (a b : text) : bool :=
  if list_eq_dec ascii_dec a b then true else false.

(** [bool(s)] for a string: true unless empty. *)
Definition truthy {A} (l : list A) : bool :=
  match l with [] => false | _ :: _ => true end.

(** [str.isspace] on one code point (CPython's [Py_UNICODE_ISSPACE]); the
    same predicate is the class [\s] of [re] on [str] patterns. *)
Definition isspace (c : ascii) : bool :=
  let n := nat_of_ascii c in
  ((9 <=? n) && (n <=? 13)) || ((28 <=? n) && (n <=? 32))
  || (n =? 133) || (n =? 160).

(** [\d] on the modelled range: the ten ASCII digits. *)
Definition isdigit (c : ascii) : bool :=
  let n := nat_of_ascii c in (48 <=? n) && (n <=? 57).

(** Simple lower-case mapping of one code point. *)
Definition lower_char (c : ascii) : ascii :=
  let n := nat_of_ascii c in
  if ((65 <=? n) && (n <=? 90))
     || ((192 <=? n) && (n <=? 222) && negb (n =? 215))
  then ascii_of_nat (n + 32) else c.

(** [str.lower] *)
Definition lower (s : text) : text := map lower_char s.

Fixpoint dropwhile {A} (p : A -> bool) (l : list A) : list A :=
  match l with
  | x :: l' => if p x then dropwhile p l' else l
  | [] => []
  end.

Fixpoint takewhile {A} (p : A -> bool) (l : list A) : list A :=
  match l with
  | x :: l' => if p x then x :: takewhile p l' else []
  | [] => []
  end.

(** [str.lstrip], [str.rstrip], [str.strip] without argument. *)
Definition lstrip (s : text) : text := dropwhile isspace s.
Definition rstrip (s : text) : text := rev (dropwhile isspace (rev s)).
Definition strip (s : text) : text := rstrip (lstrip s).

(** [str.startswith] and [str.endswith] *)
Fixpoint startswith (s p : text) {struct p} : bool :=
  match p with
  | [] => true
  | c :: p' =>
      match s with
      | d :: s' => if ascii_dec c d then startswith s' p' else false
      | [] => false
      end
  end.

Definition endswith (s p : text) : bool := startswith (rev s) (rev p).

(** [s.split(sep)] for a one-character separator: never the empty list. *)
Fixpoint split_on (sep : ascii) (s : text) : list text :=
  match s with
  | [] => [[]]
  | c :: s' =>
      if ascii_dec c sep then [] :: split_on sep s'
      else match split_on sep s' with
           | l :: ls => (c :: l) :: ls
           | [] => [[c]]
           end
  end.

(** The value of a run of decimal digits. *)
Definition digit_val (c : ascii) : Z := Z.of_nat (nat_of_ascii c) - 48.

Definition int_of_digits (s : text) : Z :=
  fold_left (fun acc c => (10 * acc + digit_val c)%Z) s 0%Z.

(** ** The fragment of [re] used by the module

    Every repetition in the module's patterns ranges over a single-character
    class, so [r_rep] repeats a class.  Each pattern has exactly one capture
    group.  Matching is Python's: backtracking, alternatives left to right,
    greedy repetition longest first, lazy repetition shortest first. *)

Record flags := Flags { IGNORECASE : bool; MULTILINE : bool; DOTALL : bool }.

Inductive cls : Type :=
| c_any                      (* .      *)
| c_chr (c : ascii)          (* a literal character *)
| c_space                    (* \s     *)
| c_digit                    (* \d     *)
| c_or (a b : cls).          (* [ab]   *)

Inductive quant : Type := q_star | q_plus | q_opt.

Inductive re : Type :=
| r_eps
| r_cls (c : cls)
| r_seq (a b : re)
| r_alt (a b : re)
| r_rep (c : cls) (q : quant) (greedy : bool)
| r_grp (a : re)             (* ( ... )   *)
| r_look (a : re)            (* (?= ... ) *)
| r_bol                      (* ^ *)
| r_eol.                     (* $ *)

Fixpoint cls_match (fl : flags) (c : cls) (x : ascii) : bool :=
  match c with
  | c_any => DOTALL fl || negb (if ascii_dec x nl then true else false)
  | c_chr a =>
      if IGNORECASE fl
      then (if ascii_dec (lower_char x) (lower_char a) then true else false)
      else (if ascii_dec x a then true else false)
  | c_space => isspace x
  | c_digit => isdigit x
  | c_or a b => cls_match fl a x || cls_match fl b x
  end.

(** The matcher's position: the character just before it (none at the start
    of the string), the text still to read, and the capture group. *)
Record mstate := MState {
  m_prev : option ascii;
  m_rest : text;
  m_grp : option text
}.

Definition orelse {A} (a b : option A) : option A :=
  match a with Some x => Some x | None => b end.

Section Matcher.

Variable fl : flags.

(** [^]: the start of the string, and under [MULTILINE] the place after a
    newline. *)
Definition at_bol (st : mstate) : bool :=
  match m_prev st with
  | None => true
  | Some c => MULTILINE fl && (if ascii_dec c nl then true else false)
  end.

(** [$]: the end of the string and the place before a newline that ends
    it; under [MULTILINE] the place before any newline. *)
Definition at_eol (st : mstate) : bool :=
  match m_rest st with
  | [] => true
  | c :: s' =>
      (if ascii_dec c nl then true else false)
      && (MULTILINE fl || match s' with [] => true | _ => false end)
  end.

(** [c*] and [c*?]: continue with [k] after each admissible number of
    characters, most first when greedy and fewest first when lazy. *)
Fixpoint rep_star (m : ascii -> bool) (greedy : bool)
    (k : mstate -> option mstate) (g : option text)
    (p : option ascii) (s : text) {struct s} : option mstate :=
  let stop := k (MState p s g) in
  match s with
  | c :: s' =>
      if m c then
        let more := rep_star m greedy k g (Some c) s' in
        if greedy then orelse more stop else orelse stop more
      else stop
  | [] => stop
  end.

(** [c*], [c+] and [c?], greedy or lazy. *)
Definition rep (m : ascii -> bool) (q : quant) (greedy : bool)
    (k : mstate -> option mstate) (st : mstate) : option mstate :=
  let g := m_grp st in
  let stop := k st in
  match q with
  | q_star => rep_star m greedy k g (m_prev st) (m_rest st)
  | q_plus =>
      match m_rest st with
      | c :: s' => if m c then rep_star m greedy k g (Some c) s' else None
      | [] => None
      end
  | q_opt =>
      match m_rest st with
      | c :: s' =>
          if m c then
            let more := k (MState (Some c) s' g) in
            if greedy then orelse more stop else orelse stop more
          else stop
      | [] => stop
      end
  end.

(** The matcher: [bt r k st] matches [r] at [st] and continues with [k];
    when [k] fails it tries the next way of matching [r], in Python's
    order.  A lookahead is matched on its own and consumes nothing. *)
Fixpoint bt (r : re) (k : mstate -> option mstate) (st : mstate)
    {struct r} : option mstate :=
  match r with
  | r_eps => k st
  | r_cls c =>
      match m_rest st with
      | x :: s' =>
          if cls_match fl c x then k (MState (Some x) s' (m_grp st))
          else None
      | [] => None
      end
  | r_seq a b => bt a (bt b k) st
  | r_alt a b => orelse (bt a k st) (bt b k st)
  | r_rep c q greedy => rep (cls_match fl c) q greedy k st
  | r_grp a =>
      bt a (fun st' =>
              k (MState (m_prev st') (m_rest st')
                   (Some (firstn (len (m_rest st) - len (m_rest st'))
                            (m_rest st))))) st
  | r_look a =>
      match bt a Some st with
      | Some _ => k st
      | None => None
      end
  | r_bol => if at_bol st then k st else None
  | r_eol => if at_eol st then k st else None
  end.

(** A match attempt at one position. *)
Definition match_here (r : re) (p : option ascii) (s : text)
    : option mstate :=
  bt r Some (MState p s None).

(** [re.search] from a position on: the first position, left to right,
    where an attempt succeeds (the end of the string included). *)
Fixpoint search_from (r : re) (p : option ascii) (s : text)
    : option mstate :=
  match match_here r p s with
  | Some st => Some st
  | None =>
      match s with
      | [] => None
      | c :: s' => search_from r (Some c) s'
      end
  end.

(** [m.group(1)] of a successful match. *)
Definition group1 (st : mstate) : text :=
  match m_grp st with Some g => g | None => [] end.

(** [re.search(r, s)], giving [group(1)]. *)
Definition re_search (r : re) (s : text) : option text :=
  option_map group1 (search_from r None s).

(** [re.findall(r, s)] for a pattern with one group: the group of every
    match, scanning on from the end of the previous match.  A match that
    consumed nothing moves the scan one character on.  The scan makes at
    most [len s + 1] attempts that do not overlap, which is the fuel. *)
Fixpoint findall_from (fuel : nat) (r : re) (p : option ascii) (s : text)
    : list text :=
  match fuel with
  | O => []
  | S fuel' =>
      match match_here r p s with
      | Some st =>
          group1 st ::
            (if len (m_rest st) <? len s
             then findall_from fuel' r (m_prev st) (m_rest st)
             else match s with
                  | [] => []
                  | c :: s' => findall_from fuel' r (Some c) s'
                  end)
      | None =>
          match s with
          | [] => []
          | c :: s' => findall_from fuel' r (Some c) s'
          end
      end
  end.

Definition re_findall (r : re) (s : text) : list text :=
  findall_from (S (len s)) r None s.

(** [re.sub(r, repl, s)] for a pattern without empty matches and a
    replacement without group references. *)
Fixpoint sub_from (fuel : nat) (r : re) (repl : text)
    (p : option ascii) (s : text) : text :=
  match fuel with
  | O => s
  | S fuel' =>
      match match_here r p s with
      | Some st =>
          if len (m_rest st) <? len s
          then repl ++ sub_from fuel' r repl (m_prev st) (m_rest st)
          else match s with
               | [] => []
               | c :: s' => c :: sub_from fuel' r repl (Some c) s'
               end
      | None =>
          match s with
          | [] => []
          | c :: s' => c :: sub_from fuel' r repl (Some c) s'
          end
      end
  end.

Definition re_sub (r : re) (repl s : text) : text :=
  sub_from (S (len s)) r repl None s.

End Matcher.

(** A literal string, character by character. *)
Fixpoint lit (s : text) : re :=
  match s with
  | [] => r_eps
  | c :: s' => r_seq (r_cls (c_chr c)) (lit s')
  end.

Declare Scope re_scope.
Delimit Scope re_scope with re.
Notation "a >> b" := (r_seq a b) (at level 61, right associativity) : re_scope.
Notation "a <|> b" := (r_alt a b) (at level 62, right associativity) : re_scope.

(** ** Python values and exceptions *)

(** A decoded JSON document; a [JDict] lists its keys in insertion order,
    each key once. *)
#[warnings="-register-all"]
Inductive json : Type :=
| JNull
| JBool (b : bool)
| JInt (n : Z)
| JFloat (q : QArith_base.Q)
| JStr (s : text)
| JList (l : list json)
| JDict (d : list (text * json)).

(** The exceptions the module meets.  [AIProviderError], [KeyError] and
    [IndexError] carry [str(e)]; the wording of a [TypeError], an
    [AttributeError] or a [ValueError] varies with the interpreter and is
    left out.  [OtherException] stands for an exception of any other class
    that the libraries under the module raise ([UnicodeDecodeError],
    [TimeoutError], [http.client.HTTPException], [RecursionError], ...),
    with its [str(e)]. *)
Inductive exn : Type :=
| AIProviderError (msg : text)
| KeyError (msg : text)
| IndexError (msg : text)
| TypeError
| AttributeError
| ValueError
| OtherException (msg : text).

Inductive result (A : Type) : Type :=
| Ok (a : A)
| Raise (e : exn).
Arguments Ok {A} a.
Arguments Raise {A} e.

Definition bind {A B} (r : result A) (f : A -> result B) : result B :=
  match r with
  | Ok a => f a
  | Raise e => Raise e
  end.

Notation "x <- r ;; k" := (bind r (fun x => k))
  (at level 100, r at next level, right associativity).

(** A dictionary with string keys, in insertion order. *)
Fixpoint dict_lookup {V} (d : list (text * V)) (key : text) : option V :=
  match d with
  | [] => None
  | (k, v) :: d' => if text_eqb k key then Some v else dict_lookup d' key
  end.

(** [d.get(key, default)] *)
Definition dict_get {V} (d : list (text * V)) (key : text) (default : V) : V :=
  match dict_lookup d key with
  | Some v => v
  | None => default
  end.

(** [key in d] *)
Definition dict_mem {V} (d : list (text * V)) (key : text) : bool :=
  match dict_lookup d key with
  | Some _ => true
  | None => false
  end.

(** [repr(k)] of a string without quotes or escapes, as the keys used here. *)
Definition repr_key (k : text) : text := "'" ++ k ++ "'".

(** [sys.get_int_max_str_digits()] as the interpreter starts with it
    ([sys.int_info.default_max_str_digits]). *)
Definition INT_MAX_STR_DIGITS : nat := 4300.

(** [int(s)] for [s] a run of decimal digits, leading zeros counted: the
    interpreter refuses a run of more digits than its limit with a
    [ValueError]. *)
Definition int (digits : text) : result Z :=
  if INT_MAX_STR_DIGITS <? len digits then Raise ValueError
  else Ok (int_of_digits digits).

(** ** [_extract_analysis_fields] *)

(** The dictionary [analysis] with its five fixed keys. *)
Record analysis := Analysis {
  root_cause : text;
  suggested_fixes : list text;
  confidence : Z;
  severity : text;
  tokens_used : json
}.

Definition I_S : flags := Flags true false true.   (* re.DOTALL | re.IGNORECASE *)
Definition I_ : flags := Flags true false false.   (* re.IGNORECASE *)
Definition M_ : flags := Flags false true false.   (* re.MULTILINE *)
Definition no_flags : flags := Flags false false false.

Definition colon_or_space : cls := c_or (c_chr ":") c_space.   (* [:\s] *)

(** [\n\s*SUGGESTED|$], the lookahead of the root cause pattern *)
Definition ROOT_CAUSE_END : re :=
  ((r_cls (c_chr nl) >> r_rep c_space q_star true >> lit "SUGGESTED")
   <|> r_eol)%re.

(** [ROOT CAUSE[:\s]*(.+?)(?=\n\s*SUGGESTED|$)] *)
Definition RE_ROOT_CAUSE : re :=
  (lit "ROOT CAUSE" >> r_rep colon_or_space q_star true
   >> r_grp (r_rep c_any q_plus false)
   >> r_look ROOT_CAUSE_END)%re.

(** [SUGGESTED FIXES?[:\s]*(.+?)(?=CONFIDENCE|SEVERITY|$)] *)
Definition RE_FIXES : re :=
  (lit "SUGGESTED FIXE" >> r_rep (c_chr "S") q_opt true
   >> r_rep colon_or_space q_star true
   >> r_grp (r_rep c_any q_plus false)
   >> r_look (lit "CONFIDENCE" <|> lit "SEVERITY" <|> r_eol))%re.

(** The bullet pattern, its parts set apart by blanks here:
    [(?:^|\n)  \s*  (?:\d+\.|\-|\* )  \s*  (.+)] *)
Definition RE_BULLET : re :=
  ((r_bol <|> r_cls (c_chr nl)) >> r_rep c_space q_star true
   >> ((r_rep c_digit q_plus true >> r_cls (c_chr "."))
       <|> r_cls (c_chr "-") <|> r_cls (c_chr "*"))
   >> r_rep c_space q_star true
   >> r_grp (r_rep c_any q_plus true))%re.

(** [CONFIDENCE[:\s]*(\d+)%?] *)
Definition RE_CONFIDENCE : re :=
  (lit "CONFIDENCE" >> r_rep colon_or_space q_star true
   >> r_grp (r_rep c_digit q_plus true)
   >> r_rep (c_chr "%") q_opt true)%re.

(** [SEVERITY[:\s]*(low|medium|high)] *)
Definition RE_SEVERITY : re :=
  (lit "SEVERITY" >> r_rep colon_or_space q_star true
   >> r_grp (lit "low" <|> lit "medium" <|> lit "high"))%re.

(** [\s+] *)
Definition RE_SPACES : re := r_rep c_space q_plus true.

Definition FALLBACK_ROOT_CAUSE : text :=
  "Failed to parse AI response. Please check the logs.".

Definition FALLBACK_FIXES : list text :=
  [ "Review the error logs for PostgreSQL connection issues" : text;
    "Ensure PostgreSQL server is running and accessible" : text;
    "Check database connection configuration" : text;
    "Verify network connectivity to database server" : text ].

(** The root cause taken from the captured text: trimmed, whitespace runs
    replaced by one space, and a full stop added when the text is not empty
    and does not end with one. *)
Definition clean_root_cause (captured : text) : text :=
  let root_cause := strip captured in
  let root_cause := re_sub no_flags RE_SPACES " " root_cause in
  if truthy root_cause && negb (endswith root_cause ".")
  then root_cause ++ "." else root_cause.

(** The items of the captured fixes section. *)
Definition fixes_of (fixes_text : text) : list text :=
  let fixes := re_findall M_ RE_BULLET fixes_text in
  filter truthy (map strip fixes).

(** [min(100, max(0, int(digits)))] *)
Definition clamp_confidence (digits : text) : result Z :=
  n <- int digits ;; Ok (Z.min 100 (Z.max 0 n)).

(** The [for ... else] of the fallback: the first line whose trimmed form is
    longer than 10, trimmed; the literal when the loop ends without [break]. *)
Fixpoint first_long_line (lines : list text) : text :=
  match lines with
  | [] => FALLBACK_ROOT_CAUSE
  | line :: lines' =>
      if truthy (strip line) && (10 <? len (strip line))
      then strip line else first_long_line lines'
  end.

(** The four labelled scans, each on the whole [content]. *)
Definition scan_root_cause (content : text) : text :=
  match re_search I_S RE_ROOT_CAUSE content with
  | Some g => clean_root_cause g
  | None => ""
  end.

Definition scan_fixes (content : text) : list text :=
  match re_search I_S RE_FIXES content with
  | Some fixes_text => fixes_of fixes_text
  | None => []
  end.

Definition scan_confidence (content : text) : result Z :=
  match re_search I_ RE_CONFIDENCE content with
  | Some digits => clamp_confidence digits
  | None => Ok 50%Z
  end.

Definition scan_severity (content : text) : text :=
  match re_search I_ RE_SEVERITY content with
  | Some g => lower g
  | None => "medium"
  end.

(** [_extract_analysis_fields].  The method fills the dictionary field by
    field, in the order root cause, fixes, confidence, severity; the
    conversion of the confidence is the one step that can raise, and the
    fallback overwrites the first two fields.  The debug print to [stderr]
    under [AI_DEBUG] leaves the result as it is and is not part of the
    model. *)
Definition _extract_analysis_fields (content : text) (tokens_used : json)
    : result analysis :=
  let root_cause0 := scan_root_cause content in
  let suggested_fixes0 := scan_fixes content in
  confidence0 <- scan_confidence content ;;
  let severity0 := scan_severity content in
  let analysis :=
    Analysis root_cause0 suggested_fixes0 confidence0 severity0 tokens_used in
  if negb (truthy (root_cause analysis))
     && negb (truthy (suggested_fixes analysis))
  then
    let lines := split_on nl (strip content) in
    let root_cause' :=
      if truthy lines then first_long_line lines else root_cause analysis in
    Ok (Analysis root_cause' FALLBACK_FIXES
                 (confidence analysis) (severity analysis) (tokens_used))
  else Ok analysis.

(** ** The catalogue of providers and models *)

Module Config.
(** One model's entry.  The entries of the module have the keys
    [endpoint], [max_tokens] and [cost_per_1k]; none has the key [alias],
    so [config.get("alias")] is [None] for each of them. *)
Record t := Make {
  endpoint : text;
  max_tokens : Z;
  cost_per_1k : QArith_base.Q;
  alias : option text
}.
End Config.

(** One line of the catalogue: the model's name and its entry, the cost
    given as a fraction. *)
Definition entry (name endpoint : string) (max_tokens : Z)
    (cost_num : Z) (cost_den : positive) : text * Config.t :=
  (list_ascii_of_string name,
   Config.Make endpoint max_tokens (QArith_base.Qmake cost_num cost_den) None).

(** [AIAnalyzer.SUPPORTED_MODELS], in the order of the source. *)
Definition SUPPORTED_MODELS : list (text * list (text * Config.t)) :=
  [ ("openai" : text,
     [ entry "gpt-4o" "chat/completions" 128000 5 1000;
       entry "gpt-4o-mini" "chat/completions" 128000 15 100000;
       entry "gpt-4o-2024-11-20" "chat/completions" 128000 25 10000;
       entry "gpt-4o-2024-08-06" "chat/completions" 128000 25 10000;
       entry "gpt-4o-mini-2024-07-18" "chat/completions" 128000 15 100000;
       entry "o1-preview" "chat/completions" 128000 15 1000;
       entry "o1-preview-2024-09-12" "chat/completions" 128000 15 1000;
       entry "o1-mini" "chat/completions" 128000 3 1000;
       entry "o1-mini-2024-09-12" "chat/completions" 128000 3 1000;
       entry "gpt-4-turbo" "chat/completions" 128000 1 100;
       entry "gpt-4-turbo-2024-04-09" "chat/completions" 128000 1 100 ]);
    ("anthropic" : text,
     [ entry "claude-opus-4-20250514" "messages" 4096 15 100;
       entry "claude-sonnet-4-20250514" "messages" 4096 3 100;
       entry "claude-3-opus-20240229" "messages" 4096 15 100;
       entry "claude-3-5-sonnet-20241022" "messages" 8192 3 100;
       entry "claude-3-5-haiku-20241022" "messages" 8192 25 10000 ]);
    ("gemini" : text,
     [ entry "gemini-2.0-flash" "generateContent" 1000000 5 10000;
       entry "gemini-2.0-pro-exp" "generateContent" 2000000 2 1000;
       entry "gemini-1.5-pro" "generateContent" 2000000 2 1000;
       entry "gemini-1.5-flash" "generateContent" 1000000 5 10000 ]) ].

(** ** [AIAnalyzer] *)

(** The attributes [__init__] sets. *)
Record AIAnalyzer := Analyzer {
  provider : text;
  max_tokens : Z;
  api_key : text;
  model : text;
  model_config : Config.t;
  api_base : text;
  headers : list (text * text)
}.

Definition opt_text_eqb (a : option text) (b : text) : bool :=
  match a with
  | Some x => text_eqb x b
  | None => false
  end.

(** [_resolve_model_name], for a provider of the catalogue
    ([SUPPORTED_MODELS[self.provider]] raises [KeyError] otherwise). *)
Definition _resolve_model_name (self_provider model : text) : result text :=
  match dict_lookup SUPPORTED_MODELS self_provider with
  | None => Raise (KeyError (repr_key self_provider))
  | Some provider_models =>
      if dict_mem provider_models model then Ok model
      else
        match find (fun item => opt_text_eqb (Config.alias (snd item)) model)
                   provider_models with
        | Some (model_name, _) => Ok model_name
        | None => Ok model
        end
  end.

(** The dictionary [defaults] of [_get_default_model]. *)
Definition defaults : list (text * text) :=
  [ ("openai" : text, "gpt-4o-mini" : text);
    ("anthropic" : text, "claude-3-5-sonnet-20241022" : text);
    ("gemini" : text, "gemini-1.5-flash" : text) ].

Definition _get_default_model (self_provider : text) : result text :=
  match dict_lookup defaults self_provider with
  | Some m => Ok m
  | None => Raise (KeyError (repr_key self_provider))
  end.

(** [_setup_provider_config]: the base URL and the headers; for a provider
    other than the three, the attributes stay unset. *)
Definition _setup_provider_config (self_provider self_api_key : text)
    : option (text * list (text * text)) :=
  if text_eqb self_provider "openai" then
    Some ("https://api.openai.com/v1" : text,
          [ ("Authorization" : text, "Bearer " ++ self_api_key);
            ("Content-Type" : text, "application/json" : text) ])
  else if text_eqb self_provider "anthropic" then
    Some ("https://api.anthropic.com/v1" : text,
          [ ("x-api-key" : text, self_api_key);
            ("Content-Type" : text, "application/json" : text);
            ("anthropic-version" : text, "2023-06-01" : text) ])
  else if text_eqb self_provider "gemini" then
    Some ("https://generativelanguage.googleapis.com/v1beta" : text,
          [ ("Content-Type" : text, "application/json" : text) ])
  else None.

(** [bool(x)] for an optional string: [None] and the empty string are false. *)
Definition truthy_opt (x : option text) : bool :=
  match x with
  | Some s => truthy s
  | None => false
  end.

(** Lines 81-84 of [__init__]: the requested model resolved, or the
    provider's default when none is requested. *)
Definition select_model (self_provider : text) (model : option text)
    : result text :=
  if truthy_opt model
  then match model with
       | Some m => _resolve_model_name self_provider m
       | None => _get_default_model self_provider
       end
  else _get_default_model self_provider.

(** [AIAnalyzer.__init__].  [getenv_api_key] is the value of
    [os.getenv("AI_ERROR_ANALYSIS_API_KEY")]: [None] when the variable is not
    set.  [_setup_provider_config] sets [api_base] and [headers] for each of
    the three providers, the only ones that reach it. *)
Definition __init__ (getenv_api_key : option text)
    (provider : text) (model : option text) (max_tokens : Z)
    : result AIAnalyzer :=
  let self_provider := lower provider in
  let self_max_tokens := max_tokens in
  let self_api_key := getenv_api_key in
  if negb (truthy_opt self_api_key) then
    Raise (AIProviderError ("API key not found for " ++ provider))
  else if negb (dict_mem SUPPORTED_MODELS self_provider) then
    Raise (AIProviderError ("Unsupported provider: " ++ provider))
  else
    self_model <- select_model self_provider model ;;
    provider_models <-
      match dict_lookup SUPPORTED_MODELS self_provider with
      | Some ms => Ok ms
      | None => Raise (KeyError (repr_key self_provider))
      end ;;
    match dict_lookup provider_models self_model with
    | None =>
        Raise (AIProviderError
                 ("Unsupported model '" ++ self_model
                  ++ "' for provider '" ++ self_provider ++ "'"))
    | Some self_model_config =>
        let key := match self_api_key with Some k => k | None => [] end in
        let (base, hdrs) :=
          match _setup_provider_config self_provider key with
          | Some bh => bh
          | None => ([], [])
          end in
        Ok (Analyzer self_provider self_max_tokens key
              self_model self_model_config base hdrs)
    end.

(** ** [_build_prompt] *)

(** The analysis context.  A value of [build_info] stands for the text the
    f-string renders for it; an absent key of [context] is [None]. *)
Record context := Context {
  build_info : option (list (text * text));
  log_excerpt : option text
}.

(** [sep.join(lines)] *)
Fixpoint join (sep : text) (lines : list text) : text :=
  match lines with
  | [] => []
  | [l] => l
  | l :: ls => l ++ sep ++ join sep ls
  end.

(** The template of the f-string, one element per source line. *)
Definition prompt_lines (pipeline branch command exit_status phase log : text)
    : list text :=
  [ "You are an expert DevOps engineer analyzing a CI/CD build failure. Provide specific, actionable solutions based on the error logs." : text;
    "" : text;
    "BUILD INFORMATION:" : text;
    "- Pipeline: " ++ pipeline;
    "- Branch: " ++ branch;
    "- Command: " ++ command;
    "- Exit Status: " ++ exit_status;
    "- Phase: " ++ phase;
    "" : text;
    "ERROR LOG (last 100 lines):" : text;
    "```" : text;
    log ++ "  # Increased log size";
    "```" : text;
    "" : text;
    "CRITICAL ANALYSIS RULES FOR GIT ERRORS:" : text;
    "1. If you see " ++ [dq] ++ "fatal: unable to access" ++ [dq] ++ " with a GitHub URL, this is AUTHENTICATION failure, NOT network issues";
    "2. If you see " ++ [dq] ++ "HTTP/2 stream 0 was not closed cleanly: PROTOCOL_ERROR" ++ [dq] ++ " with GitHub, this means authentication failed";
    "3. If the log shows " ++ [dq] ++ "Using GitHub token for authentication" ++ [dq] ++ " followed by an error, the token is invalid/expired";
    "4. NEVER suggest " ++ [dq] ++ "check network connectivity" ++ [dq] ++ " for GitHub access errors - it's always authentication";
    "" : text;
    "ANALYSIS INSTRUCTIONS:" : text;
    "Analyze the error logs carefully and provide your response in EXACTLY this format:" : text;
    "" : text;
    "ROOT CAUSE: [Write a complete 1-2 sentence explanation. For GitHub errors, explicitly state it's an authentication issue with the token]" : text;
    "" : text;
    "SUGGESTED FIXES:" : text;
    "- [For GitHub auth errors: " ++ [dq] ++ "Regenerate GitHub personal access token at https://github.com/settings/tokens with 'repo' scope for private repositories" ++ [dq] ++ "]";
    "- [For GitHub auth errors: " ++ [dq] ++ "Verify GITHUB_TOKEN in .env file is correct and hasn't expired - tokens show as 'ghp_' followed by random characters" ++ [dq] ++ "]";
    "- [For GitHub auth errors: " ++ [dq] ++ "Test token with: curl -H 'Authorization: token YOUR_TOKEN' https://api.github.com/user" ++ [dq] ++ "]";
    "" : text;
    "CONFIDENCE: [0-100]%" : text;
    "SEVERITY: [low/medium/high]" : text;
    "" : text;
    "Important:" : text;
    "- Be SPECIFIC about the actual error - don't give generic advice" : text;
    "- For GitHub/git errors, ALWAYS focus on authentication/token issues" : text;
    "- Include exact commands and URLs where applicable" : text ].

Definition _build_prompt (context : context) : text :=
  let build_info :=
    match build_info context with Some d => d | None => [] end in
  let log_excerpt :=
    match log_excerpt context with Some l => l | None => [] end in
  join [nl]
    (prompt_lines
       (dict_get build_info "pipeline" "unknown")
       (dict_get build_info "branch" "unknown")
       (dict_get build_info "command" "unknown")
       (dict_get build_info "exit_status" "unknown")
       (dict_get build_info "phase" "command")
       (firstn 5000 log_excerpt)).

(** ** Requests *)

(** What a [_call_*] method hands to [_make_request]. *)
Record request := Request {
  req_url : text;
  req_data : json;
  req_headers : list (text * text)
}.

Definition temperature : json := JFloat (QArith_base.Qmake 1 10).   (* 0.1 *)

(** [min(self.max_tokens, self.model_config["max_tokens"])] *)
Definition token_cap (self : AIAnalyzer) : Z :=
  Z.min (max_tokens self) (Config.max_tokens (model_config self)).

Definition _call_openai (self : AIAnalyzer) (prompt : text) : request :=
  let url := api_base self ++ "/" ++ Config.endpoint (model_config self) in
  let data :=
    JDict
      [ ("model" : text, JStr (model self));
        ("messages" : text,
         JList
           [ JDict [ ("role" : text, JStr "system");
                     ("content" : text,
                      JStr "You are an expert DevOps engineer analyzing CI/CD failures.") ];
             JDict [ ("role" : text, JStr "user");
                     ("content" : text, JStr prompt) ] ]);
        ("max_tokens" : text, JInt (token_cap self));
        ("temperature" : text, temperature) ] in
  Request url data (headers self).

Definition _call_anthropic (self : AIAnalyzer) (prompt : text) : request :=
  let url := api_base self ++ "/" ++ Config.endpoint (model_config self) in
  let data :=
    JDict
      [ ("model" : text, JStr (model self));
        ("max_tokens" : text, JInt (token_cap self));
        ("messages" : text,
         JList [ JDict [ ("role" : text, JStr "user");
                         ("content" : text, JStr prompt) ] ]) ] in
  Request url data (headers self).

Definition _call_gemini (self : AIAnalyzer) (prompt : text) : request :=
  let url :=
    api_base self ++ "/models/" ++ model self ++ ":"
    ++ Config.endpoint (model_config self) in
  let url := url ++ "?key=" ++ api_key self in
  let data :=
    JDict
      [ ("contents" : text,
         JList [ JDict [ ("parts" : text,
                          JList [ JDict [ ("text" : text, JStr prompt) ] ]) ] ]);
        ("generationConfig" : text,
         JDict [ ("maxOutputTokens" : text, JInt (token_cap self));
                 ("temperature" : text, temperature) ]) ] in
  let headers :=
    filter (fun kv => negb (text_eqb (fst kv) "Authorization")) (headers self) in
  Request url data headers.

(** The dispatch of [analyze] on the provider. *)
Definition build_request (self : AIAnalyzer) (prompt : text)
    : result request :=
  if text_eqb (provider self) "openai" then Ok (_call_openai self prompt)
  else if text_eqb (provider self) "anthropic"
  then Ok (_call_anthropic self prompt)
  else if text_eqb (provider self) "gemini" then Ok (_call_gemini self prompt)
  else Raise (AIProviderError
                ("Provider " ++ provider self ++ " not implemented")).

(** ** [_make_request] *)

(** What the network does with a request, from [urlopen] to the decoded
    text.  [Body]: the response was read and decoded as UTF-8.
    [HTTPError]: [urlopen] raised it, and its body was read and decoded.
    [URLError]: [urlopen] raised it ([msg] is its [str(e)]).
    [NetException]: anything else, which no handler of the method catches:
    an exception of another class raised by [urlopen], by [read()] or by
    [decode('utf-8')], in the [try] block or while the body of an
    [HTTPError] is read ([msg] is its [str(e)]). *)
Inductive net_outcome : Type :=
| Body (response_data : text)
| HTTPError (code : Z) (error_body : text)
| URLError (msg : text)
| NetException (msg : text).

(** What [json.loads] does with a text: a value, a [JSONDecodeError], or an
    exception of another class (a [RecursionError] on a deeply nested
    document); the two carry their [str(e)]. *)
Inductive loads_outcome : Type :=
| Loaded (v : json)
| JSONDecodeError (msg : text)
| LoadsException (msg : text).

(** The network activity so far: the requests given to [urlopen], oldest
    first. *)
Definition wire := list request.

(** [str(n)] for an integer. *)
Definition str_of_int (n : Z) : text :=
  DecimalString.NilZero.string_of_int (Z.to_int n).

Section Transport.

(** The outside world: the network and [json.loads]. *)
Variable urlopen : request -> net_outcome.
Variable json_loads : text -> loads_outcome.

Definition _make_request (req : request) (w : wire) : result json * wire :=
  if negb (startswith (req_url req) "https://")
  then (Raise (AIProviderError "Only HTTPS URLs allowed"), w)
  else
    let w' := w ++ [req] in
    match urlopen req with
    | Body response_data =>
        match json_loads response_data with
        | Loaded v => (Ok v, w')
        | JSONDecodeError msg =>
            (Raise (AIProviderError ("Invalid JSON response: " ++ msg)), w')
        | LoadsException msg => (Raise (OtherException msg), w')
        end
    | HTTPError code error_body =>
        (Raise (AIProviderError
                  ("HTTP " ++ str_of_int code ++ ": "
                   ++ firstn 200 error_body ++ "...")), w')
    | URLError msg =>
        (Raise (AIProviderError ("Network error: " ++ msg)), w')
    | NetException msg => (Raise (OtherException msg), w')
    end.

End Transport.

(** ** [_parse_response] *)

(** A subscript: a string key or a non-negative index. *)
Inductive subscript : Type :=
| by_key (k : text)
| by_index (i : nat).

(** [v[s]] *)
Definition getitem (v : json) (s : subscript) : result json :=
  match v, s with
  | JDict d, by_key k =>
      match dict_lookup d k with
      | Some x => Ok x
      | None => Raise (KeyError (repr_key k))
      end
  | JDict d, by_index i => Raise (KeyError (str_of_int (Z.of_nat i)))
  | JList l, by_index i =>
      match nth_error l i with
      | Some x => Ok x
      | None => Raise (IndexError "list index out of range")
      end
  | JStr t, by_index i =>
      match nth_error t i with
      | Some c => Ok (JStr [c])
      | None => Raise (IndexError "string index out of range")
      end
  | JList _, by_key _ | JStr _, by_key _ =>
      Raise TypeError
  | JNull, _ | JBool _, _ | JInt _, _ | JFloat _, _ =>
      Raise TypeError
  end.

(** [v.get(key, default)]: only a dictionary has the method. *)
Definition get (v : json) (key : text) (default : json) : result json :=
  match v with
  | JDict d => Ok (dict_get d key default)
  | _ => Raise AttributeError
  end.

(** [v[s1][s2]...] *)
Fixpoint getpath (v : json) (path : list subscript) : result json :=
  match path with
  | [] => Ok v
  | s :: path' => x <- getitem v s ;; getpath x path'
  end.

(** The call of [_extract_analysis_fields] on a reply: [re.search] raises
    [TypeError] on anything but a string. *)
Definition extract_content (content tokens_used : json) : result analysis :=
  match content with
  | JStr t => _extract_analysis_fields t tokens_used
  | _ => Raise TypeError
  end.

Definition path_openai : list subscript :=
  [by_key "choices"; by_index 0; by_key "message"; by_key "content"].
Definition path_anthropic : list subscript :=
  [by_key "content"; by_index 0; by_key "text"].
Definition path_gemini : list subscript :=
  [by_key "candidates"; by_index 0; by_key "content"; by_key "parts";
   by_index 0; by_key "text"].

(** The body of the [try]. *)
Definition parse_body (self_provider : text) (response : json)
    : result analysis :=
  if text_eqb self_provider "openai" then
    content <- getpath response path_openai ;;
    usage <- get response "usage" (JDict []) ;;
    tokens_used <- get usage "total_tokens" (JInt 0) ;;
    extract_content content tokens_used
  else if text_eqb self_provider "anthropic" then
    content <- getpath response path_anthropic ;;
    usage <- get response "usage" (JDict []) ;;
    tokens_used <- get usage "output_tokens" (JInt 0) ;;
    extract_content content tokens_used
  else if text_eqb self_provider "gemini" then
    content <- getpath response path_gemini ;;
    usage <- get response "usageMetadata" (JDict []) ;;
    tokens_used <- get usage "totalTokenCount" (JInt 0) ;;
    extract_content content tokens_used
  else Raise (AIProviderError ("Unknown provider: " ++ self_provider)).

(** [try: ... except (KeyError, IndexError) as e: raise AIProviderError(...)];
    any other exception, the [ValueError] of the conversion among them,
    leaves the method as it is. *)
Definition _parse_response (self : AIAnalyzer) (response : json)
    : result analysis :=
  match parse_body (provider self) response with
  | Raise (KeyError msg) | Raise (IndexError msg) =>
      Raise (AIProviderError ("Invalid response format: " ++ msg))
  | r => r
  end.

(** ** [analyze] *)

Module AnalysisResult.
(** The dataclass [AnalysisResult]; [cached] has the default [False]. *)
Record t := Make {
  provider : text;
  model : text;
  root_cause : text;
  suggested_fixes : list text;
  confidence : Z;
  severity : text;
  analysis_time : QArith_base.Q;
  tokens_used : json;
  cached : bool
}.
End AnalysisResult.

Section Orchestration.

(** The outside world of one analysis: the network and the JSON decoder as
    for [_make_request]; the interpreter's wording of a [TypeError], an
    [AttributeError] or a [ValueError]; and the difference of the two
    readings of [time.time()]. *)
Variable urlopen : request -> net_outcome.
Variable json_loads : text -> loads_outcome.
Variable interpreter_text : exn -> text.
Variable elapsed : QArith_base.Q.

(** [str(e)] *)
Definition str_of_exn (e : exn) : text :=
  match e with
  | AIProviderError m | KeyError m | IndexError m | OtherException m => m
  | TypeError | AttributeError | ValueError => interpreter_text e
  end.

(** The [try] block of [analyze]: the provider's request is built and
    sent. *)
Definition call_provider (self : AIAnalyzer) (prompt : text) (w : wire)
    : result json * wire :=
  match build_request self prompt with
  | Ok req => _make_request urlopen json_loads req w
  | Raise e => (Raise e, w)
  end.

(** [analyze]: any exception of the call is raised again as an
    [AIProviderError]; an exception of [_parse_response] leaves as it is. *)
Definition analyze (self : AIAnalyzer) (context : context) (w : wire)
    : result AnalysisResult.t * wire :=
  let prompt := _build_prompt context in
  match call_provider self prompt w with
  | (Raise e, w') =>
      (Raise (AIProviderError ("API call failed: " ++ str_of_exn e)), w')
  | (Ok response, w') =>
      match _parse_response self response with
      | Raise e => (Raise e, w')
      | Ok analysis =>
          (Ok (AnalysisResult.Make (provider self) (model self)
                 (root_cause analysis) (suggested_fixes analysis)
                 (confidence analysis) (severity analysis) elapsed
                 (tokens_used analysis) false), w')
      end
  end.

End Orchestration.

(** * Notions used in the statements *)

(** ** Requests and envelopes *)

(** Where each provider's payload carries the token limit. *)
Definition token_path (self_provider : text) : list subscript :=
  if text_eqb self_provider "gemini"
  then [by_key "generationConfig"; by_key "maxOutputTokens"]
  else [by_key "max_tokens"].

Definition not_colon (c : ascii) : bool :=
  if ascii_dec c ":" then false else true.

(** The scheme of a URL: the text before its first colon, in lower case
    (schemes compare without regard to case); none without a colon. *)
Definition scheme_of (url : text) : option text :=
  match dropwhile not_colon url with
  | [] => None
  | _ :: _ => Some (lower (takewhile not_colon url))
  end.

(** An analyzer of each provider, with its default model. *)
Definition analyzer_of (prov : string) : result AIAnalyzer :=
  __init__ (Some (list_ascii_of_string "sk-test")) prov None 1000.

(** An envelope whose value at [key] is [null]. *)
Definition null_at (key : string) : json :=
  JDict [ (list_ascii_of_string key, JNull) ].

(** ** The prompt *)

(** [sub] occurs in [s]. *)
Definition occurs_in (sub s : text) : Prop :=
  exists pre post, s = pre ++ sub ++ post.

(** [sub in s] *)
Fixpoint contains (s sub : text) : bool :=
  startswith s sub
  || match s with
     | [] => false
     | _ :: s' => contains s' sub
     end.

(** The text rendered for a field of [build_info]: its value, or the
    given text when the key (or [build_info] itself) is absent. *)
Definition shown (ctx : context) (key absent : text) : text :=
  match build_info ctx with
  | Some d => match dict_lookup d key with Some v => v | None => absent end
  | None => absent
  end.

(** The first three lines of the template. *)
Definition PROMPT_HEAD : text :=
  "You are an expert DevOps engineer analyzing a CI/CD build failure. Provide specific, actionable solutions based on the error logs."
  ++ [nl] ++ [nl] ++ "BUILD INFORMATION:" ++ [nl].

(** ** Lines and whitespace *)

(** A text of whitespace only. *)
Definition blank (w : text) : Prop := Forall (fun c => isspace c = true) w.


(** The test of the fallback loop, on a trimmed line. *)
Definition long_enough (t : text) : bool := truthy t && (10 <? len t).

(** [r] is the trimmed form of the first of [lines] whose trimmed form is
    longer than 10 characters, or the fixed literal when there is no such
    line. *)
Definition first_long (lines : list text) (r : text) : Prop :=
  (exists i line,
      nth_error lines i = Some line
      /\ 10 < len (strip line)
      /\ r = strip line
      /\ forall j l, j < i -> nth_error lines j = Some l -> len (strip l) <= 10)
  \/ ((forall l, In l lines -> len (strip l) <= 10)
      /\ r = FALLBACK_ROOT_CAUSE).




(** ** Matching *)

(** The character before the position reached after reading [t]. *)
Definition prev_after (p : option ascii) (t : text) : option ascii :=
  fold_left (fun _ c => Some c) t p.

(** Reading a literal: the rest of the text and the last character read. *)
Fixpoint lit_prefix (fl : flags) (l : text) (p : option ascii) (s : text)
    : option (option ascii * text) :=
  match l with
  | [] => Some (p, s)
  | c :: l' =>
      match s with
      | x :: s' =>
          if cls_match fl (c_chr c) x then lit_prefix fl l' (Some x) s'
          else None
      | [] => None
      end
  end.

(** The first suffix of a text, from the left, on which [f] is defined. *)
Fixpoint first_suffix {A} (f : text -> option A) (s : text) : option A :=
  match f s with
  | Some x => Some x
  | None =>
      match s with
      | [] => None
      | _ :: s' => first_suffix f s'
      end
  end.

(** The class [[:\s]] *)
Definition is_sep (c : ascii) : bool := cls_match I_ colon_or_space c.

(** The text starts with the label, separators and an integer: the one
    attempt of the confidence pattern at that place, as
    [match_here_confidence] shows. *)
Definition confidence_here (s : text) : option text :=
  match lit_prefix I_ "CONFIDENCE" None s with
  | Some (_, s1) =>
      match takewhile isdigit (dropwhile is_sep s1) with
      | [] => None
      | ds => Some ds
      end
  | None => None
  end.

(** The text [s] reads: the label [CONFIDENCE] in any letter case, colons
    and whitespace, then the integer [ds] in full (no digit follows it). *)
Definition confidence_label_at (s ds : text) : Prop :=
  exists lab sep rest,
    s = lab ++ sep ++ ds ++ rest
    /\ lower lab = "confidence"
    /\ Forall (fun c => is_sep c = true) sep
    /\ ds <> []
    /\ Forall (fun c => isdigit c = true) ds
    /\ match rest with c :: _ => isdigit c = false | [] => True end.

(** ** Sample replies *)

(** A reply in the format the prompt asks for. *)
Definition sample_reply : text :=
  "ROOT CAUSE: Token expired." ++ [nl] ++ "SUGGESTED FIXES:" ++ [nl]
  ++ "- Regenerate token" ++ [nl] ++ "- Check expiry" ++ [nl]
  ++ "CONFIDENCE: 85%" ++ [nl] ++ "SEVERITY: high".

(** A reply with a fixes section and no root cause section. *)
Definition fixes_only_reply : text :=
  "SUGGESTED FIXES:" ++ [nl] ++ "- Restart the agent".


(** ** The prompt around the log *)

(** The lines between the build metadata and the log. *)
Definition PROMPT_MID : text :=
  [nl] ++ "ERROR LOG (last 100 lines):" ++ [nl] ++ "```" ++ [nl].

(** The template after the log. *)
Definition PROMPT_TAIL : text :=
  "  # Increased log size" ++ [nl]
  ++ join [nl] (skipn 12 (prompt_lines [] [] [] [] [] [])).

(** [context.get("log_excerpt", "")] *)
Definition log_of (ctx : context) : text :=
  match log_excerpt ctx with Some l => l | None => [] end.

(** ** The severity pattern *)

(** The text starts with [w] up to letter case: that start of the text. *)
Definition take_word (w s : text) : option text :=
  match lit_prefix I_ w None s with
  | Some (_, s') => Some (firstn (len s - len s') s)
  | None => None
  end.

(** The text starts with one of the three severity words, tried in the
    order of the pattern. *)
Definition word_here (s : text) : option text :=
  orelse (take_word "low" s)
    (orelse (take_word "medium" s) (take_word "high" s)).

(** The one attempt of the severity pattern at a place, as
    [match_here_severity] shows. *)
Definition severity_here (s : text) : option text :=
  match lit_prefix I_ "SEVERITY" None s with
  | Some (_, s1) => word_here (dropwhile is_sep s1)
  | None => None
  end.

(** [v] is one of the three severities. *)
Definition is_severity (v : text) : Prop :=
  v = "low" \/ v = "medium" \/ v = "high".

(** The text [s] reads: the label [SEVERITY] in any letter case, colons and
    whitespace, then the word [w], one of the three in any letter case. *)
Definition severity_label_at (s w : text) : Prop :=
  exists lab sep rest,
    s = lab ++ sep ++ w ++ rest
    /\ lower lab = "severity"
    /\ Forall (fun c => is_sep c = true) sep
    /\ is_severity (lower w).

(** ** Envelopes of the three providers *)

(** Where each provider's envelope carries the reply. *)
Definition reply_path (self_provider : text) : list subscript :=
  if text_eqb self_provider "openai" then path_openai
  else if text_eqb self_provider "anthropic" then path_anthropic
  else path_gemini.

(** The key of the usage record and, in it, the key of the token count. *)
Definition usage_keys (self_provider : text) : text * text :=
  if text_eqb self_provider "openai"
  then ("usage" : text, "total_tokens" : text)
  else if text_eqb self_provider "anthropic"
  then ("usage" : text, "output_tokens" : text)
  else ("usageMetadata" : text, "totalTokenCount" : text).

(** [p] is one of the three providers. *)
Definition is_provider (p : text) : Prop :=
  p = "openai" \/ p = "anthropic" \/ p = "gemini".

(** ** A sample world *)

(** An OpenAI envelope around [sample_reply], with a usage record. *)
Definition sample_envelope : json :=
  JDict
    [ ("choices" : text,
       JList [ JDict [ ("message" : text,
                        JDict [ ("content" : text, JStr sample_reply) ]) ] ]);
      ("usage" : text, JDict [ ("total_tokens" : text, JInt 42) ]) ].

(** A network that answers every request with a body, and a decoder that
    reads [sample_envelope] from it. *)
Definition sample_urlopen (req : request) : net_outcome := Body "{}".
Definition sample_json_loads (body : text) : loads_outcome :=
  Loaded sample_envelope.


(** The analyzer that [__init__] builds for OpenAI without a model. *)
Definition sample_analyzer : AIAnalyzer :=
  Analyzer "openai" 1000 "sk-test" "gpt-4o-mini"
    (Config.Make "chat/completions" 128000
       (QArith_base.Qmake 15 100000) None)
    "https://api.openai.com/v1"
    [ ("Authorization" : text, "Bearer sk-test" : text);
      ("Content-Type" : text, "application/json" : text) ].

(** The wording of the interpreter, left empty, and a duration. *)
Definition sample_text (e : exn) : text := [].
Definition sample_elapsed : QArith_base.Q := QArith_base.Qmake 3 2.

(** A reply whose confidence has one digit more than [int] converts. *)
Definition long_confidence_reply : text :=
  "CONFIDENCE: " ++ repeat "9"%char 4301.

(** ** Bullet lines *)

(** The parts of the bullet pattern. *)
Definition BULLET_START : re := (r_bol <|> r_cls (c_chr nl))%re.
Definition BULLET_SPACES : re := r_rep c_space q_star true.
Definition BULLET_MARK : re :=
  ((r_rep c_digit q_plus true >> r_cls (c_chr "."))
   <|> r_cls (c_chr "-") <|> r_cls (c_chr "*"))%re.
Definition BULLET_GROUP : re := r_grp (r_rep c_any q_plus true).

(** A bullet marker: a hyphen, an asterisk, or a number and a full stop. *)
Definition is_marker (mk : text) : Prop :=
  mk = "-" \/ mk = "*"
  \/ exists ds, mk = ds ++ "." /\ ds <> []
                /\ Forall (fun c => isdigit c = true) ds.

(** An item: a line of text that is not empty and has no whitespace at
    either end. *)
Definition is_item (it : text) : Prop :=
  it <> [] /\ strip it = it /\ ~ In nl it.

(** The end of a line: the end of the text, or a newline. *)
Definition line_end (rest : text) : Prop :=
  rest = [] \/ exists r, rest = nl :: r.

(** A bullet line: the marker, one space, the item. *)
Definition bullet_line (b : text * text) : text := fst b ++ " " ++ snd b.

(** The lines after the first: each with its newline before it. *)
Definition lines_after (bs : list (text * text)) : text :=
  List.concat (map (fun b => nl :: bullet_line b) bs).

(** ** Payloads *)

(** Where each provider's payload carries the prompt. *)
Definition prompt_path (self_provider : text) : list subscript :=
  if text_eqb self_provider "openai"
  then [by_key "messages"; by_index 1; by_key "content"]
  else if text_eqb self_provider "anthropic"
  then [by_key "messages"; by_index 0; by_key "content"]
  else [by_key "contents"; by_index 0; by_key "parts"; by_index 0;
        by_key "text"].

(** * Properties *)

(** ** Text lemmas *)

Lemma text_eqb_eq (a b : text) : text_eqb a b = true <-> a = b.
Proof.
  unfold text_eqb. destruct (list_eq_dec ascii_dec a b); split; congruence.
Qed.

Lemma text_eqb_refl (a : text) : text_eqb a a = true.
Proof. apply text_eqb_eq. reflexivity. Qed.

Lemma text_eqb_neq (a b : text) : text_eqb a b = false <-> a <> b.
Proof.
  unfold text_eqb. destruct (list_eq_dec ascii_dec a b); split; congruence.
Qed.

Lemma truthy_false {A} (l : list A) : truthy l = false <-> l = [].
Proof. destruct l; simpl; split; congruence. Qed.

Lemma truthy_true {A} (l : list A) : truthy l = true <-> l <> [].
Proof. destruct l; simpl; split; congruence. Qed.

Lemma startswith_app (p s : text) : startswith (p ++ s) p = true.
Proof.
  induction p as [|c p IH]; simpl; [reflexivity|].
  destruct (ascii_dec c c); [assumption | congruence].
Qed.

Lemma startswith_inv (s p : text) :
  startswith s p = true -> exists rest, s = p ++ rest.
Proof.
  revert s. induction p as [|c p IH]; intros s H; simpl in *.
  - exists s. reflexivity.
  - destruct s as [|d s]; [discriminate|].
    destruct (ascii_dec c d) as [->|]; [|discriminate].
    destruct (IH _ H) as [rest ->]. exists rest. reflexivity.
Qed.

(** Case analysis on the next comparison of two texts in the goal. *)
Ltac case_text_eqb :=
  match goal with
  | |- context [if text_eqb ?a ?b then _ else _] =>
      let E := fresh "E" in
      destruct (text_eqb a b) eqn:E;
      [apply text_eqb_eq in E | apply text_eqb_neq in E]
  end.

(** ** The catalogue *)

(** The providers of the catalogue. *)
Lemma supported_provider (p : text) (models : list (text * Config.t)) :
  dict_lookup SUPPORTED_MODELS p = Some models ->
  p = "openai" \/ p = "anthropic" \/ p = "gemini".
Proof.
  unfold SUPPORTED_MODELS, dict_lookup.
  repeat case_text_eqb; try discriminate; auto.
Qed.

(** No entry of the catalogue has an empty name. *)
Lemma model_names_nonempty (p : text) (models : list (text * Config.t)) :
  dict_lookup SUPPORTED_MODELS p = Some models ->
  dict_lookup models [] = None.
Proof.
  intros H. destruct (supported_provider _ _ H) as [-> | [-> | ->]];
    vm_compute in H; injection H as <-; reflexivity.
Qed.

(** Every provider of the catalogue has its base URL and headers. *)
Lemma setup_defined (p key : text) (models : list (text * Config.t)) :
  dict_lookup SUPPORTED_MODELS p = Some models ->
  exists base hdrs, _setup_provider_config p key = Some (base, hdrs).
Proof.
  intros H. destruct (supported_provider _ _ H) as [-> | [-> | ->]];
    unfold _setup_provider_config; simpl; eauto.
Qed.

(** ** Construction of the analyzer *)

Lemma dict_mem_lookup {V} (d : list (text * V)) (k : text) :
  dict_mem d k = true <-> exists v, dict_lookup d k = Some v.
Proof.
  unfold dict_mem. destruct (dict_lookup d k); split; eauto; try discriminate.
  intros [v H]. discriminate H.
Qed.

Lemma dict_mem_none {V} (d : list (text * V)) (k : text) :
  dict_mem d k = false <-> dict_lookup d k = None.
Proof.
  unfold dict_mem. destruct (dict_lookup d k); split; congruence.
Qed.

(** What a successful construction has established. *)
Lemma init_ok (key : option text) (prov : text) (m : option text) (mt : Z)
    (self : AIAnalyzer) :
  __init__ key prov m mt = Ok self ->
  exists k models,
    key = Some k /\ k <> [] /\
    dict_lookup SUPPORTED_MODELS (lower prov) = Some models /\
    select_model (lower prov) m = Ok (model self) /\
    dict_lookup models (model self) = Some (model_config self) /\
    provider self = lower prov /\ max_tokens self = mt /\ api_key self = k /\
    _setup_provider_config (lower prov) k = Some (api_base self, headers self).
Proof.
  unfold __init__.
  destruct (truthy_opt key) eqn:K; cbn [negb]; [|discriminate].
  destruct key as [k|]; [|discriminate]. cbn [truthy_opt] in K.
  apply truthy_true in K.
  destruct (dict_mem SUPPORTED_MODELS (lower prov)) eqn:P; cbn [negb];
    [|discriminate].
  apply dict_mem_lookup in P. destruct P as [models P]. rewrite P.
  destruct (select_model (lower prov) m) as [r|e]; cbn [bind];
    [|discriminate].
  destruct (dict_lookup models r) as [cfg|] eqn:R; [|discriminate].
  destruct (setup_defined _ k _ P) as (base & hdrs & S). rewrite S.
  intros H. injection H as <-. cbn.
  exists k, models. repeat split; auto.
Qed.

(** A model of the provider's catalogue resolves to itself. *)
Lemma select_model_known (p m : text) (models : list (text * Config.t)) :
  dict_lookup SUPPORTED_MODELS p = Some models ->
  dict_mem models m = true ->
  select_model p (Some m) = Ok m.
Proof.
  intros P M. unfold select_model. simpl.
  destruct (truthy m) eqn:T.
  - unfold _resolve_model_name. rewrite P, M. reflexivity.
  - apply truthy_false in T. subst m.
    apply dict_mem_lookup in M. destruct M as [v M].
    rewrite (model_names_nonempty _ _ P) in M. discriminate M.
Qed.

(** For a provider of the catalogue every request resolves to some model. *)
Lemma select_model_total (p : text) (requested : option text)
    (models : list (text * Config.t)) :
  dict_lookup SUPPORTED_MODELS p = Some models ->
  exists r, select_model p requested = Ok r.
Proof.
  intros P.
  assert (D : exists r, _get_default_model p = Ok r).
  { destruct (supported_provider _ _ P) as [-> | [-> | ->]];
      eexists; reflexivity. }
  unfold select_model. destruct (truthy_opt requested); [|exact D].
  destruct requested as [m|]; [|exact D].
  unfold _resolve_model_name. rewrite P.
  destruct (dict_mem models m); [eexists; reflexivity|].
  destruct (find _ models) as [[name cfg]|]; eexists; reflexivity.
Qed.

(** C10. The credential is checked before the provider.  Whatever the
    provider string and the model, construction without a credential (the
    variable unset, or set to the empty string) raises the missing-credential
    error; the unknown-provider error is raised exactly when a credential is
    present and the lower-cased provider is not in the catalogue. *)
Theorem credential_checked_before_provider
    (prov : text) (m : option text) (mt : Z) :
  __init__ None prov m mt
    = Raise (AIProviderError ("API key not found for " ++ prov))
  /\ __init__ (Some []) prov m mt
    = Raise (AIProviderError ("API key not found for " ++ prov))
  /\ forall key,
       __init__ key prov m mt
         = Raise (AIProviderError ("Unsupported provider: " ++ prov))
       <-> truthy_opt key = true
           /\ dict_mem SUPPORTED_MODELS (lower prov) = false.
Proof.
  split; [reflexivity|]. split; [reflexivity|].
  intros key. unfold __init__.
  destruct (truthy_opt key) eqn:K; cbn [negb].
  - destruct (dict_mem SUPPORTED_MODELS (lower prov)) eqn:P; cbn [negb].
    + split; [|intros [_ H]; discriminate H].
      intros H. exfalso.
      apply dict_mem_lookup in P. destruct P as [models P].
      rewrite P in H.
      destruct (select_model (lower prov) m) as [r|e] eqn:SM; cbn [bind] in H;
        [|injection H as H; subst e].
      * destruct (dict_lookup models r); [|discriminate H].
        destruct (match _setup_provider_config _ _ with
                  | Some bh => bh | None => _ end); discriminate H.
      * unfold select_model, _resolve_model_name, _get_default_model in *.
        rewrite P in *.
        destruct (supported_provider _ _ P) as [E | [E | E]];
          rewrite E in *; simpl in *;
          repeat match goal with
                 | H : context [if ?b then _ else _] |- _ => destruct b
                 | H : context [match ?x with Some _ => _ | None => _ end]
                   |- _ => destruct x
                 | H : context [let (_, _) := ?x in _] |- _ => destruct x
                 end; discriminate.
    + split; auto.
  - split; [intros H; discriminate H | intros [H _]; discriminate H].
Qed.

(** The statement at an unknown provider, with a credential. *)
Lemma credential_checked_before_provider_witness :
  truthy_opt (Some (list_ascii_of_string "sk-test")) = true
  /\ dict_mem SUPPORTED_MODELS (lower "mistral") = false.
Proof.
  apply (credential_checked_before_provider "mistral" None 1000).
  reflexivity.
Defined.

(** C9. With a credential, for a provider of the catalogue (in any letter
    case): every model of that provider's catalogue resolves to itself and
    construction succeeds with exactly that model and its catalogue entry;
    every request resolves to some model, and a request whose resolution is
    not in the provider's catalogue makes construction raise the
    unsupported-model error, which names the resolved model and the
    lower-cased provider. *)
Theorem resolve_then_validate
    (key prov : text) (models : list (text * Config.t)) (mt : Z) :
  key <> [] ->
  dict_lookup SUPPORTED_MODELS (lower prov) = Some models ->
  (forall m, dict_mem models m = true ->
     select_model (lower prov) (Some m) = Ok m
     /\ exists self,
          __init__ (Some key) prov (Some m) mt = Ok self
          /\ model self = m /\ provider self = lower prov
          /\ dict_lookup models m = Some (model_config self))
  /\ (forall requested r,
        select_model (lower prov) requested = Ok r ->
        dict_mem models r = false ->
        __init__ (Some key) prov requested mt
          = Raise (AIProviderError
                     ("Unsupported model '" ++ r ++ "' for provider '"
                      ++ lower prov ++ "'")))
  /\ (forall requested, exists r, select_model (lower prov) requested = Ok r).
Proof.
  intros K P.
  assert (KT : truthy_opt (Some key) = true) by (apply truthy_true; exact K).
  assert (PM : dict_mem SUPPORTED_MODELS (lower prov) = true)
    by (apply dict_mem_lookup; eauto).
  split.
  - intros m M. pose proof (select_model_known _ _ _ P M) as S.
    split; [exact S|].
    apply dict_mem_lookup in M. destruct M as [cfg M].
    destruct (setup_defined _ key _ P) as (base & hdrs & U).
    unfold __init__. rewrite KT, PM, S, P. cbn [negb bind].
    rewrite M, U. eexists. split; [reflexivity|]. cbn. auto.
  - split.
    + intros requested r S M. apply dict_mem_none in M.
      unfold __init__. rewrite KT, PM, S, P. cbn [negb bind].
      rewrite M. reflexivity.
    + intros requested. apply select_model_total with (models := models).
      exact P.
Qed.

(** The statement at [OpenAI] (upper-case letters included), for the model
    [gpt-4o] of its catalogue and for the unknown model [gpt-5]. *)
Lemma resolve_then_validate_witness :
  (exists self,
     __init__ (Some (list_ascii_of_string "sk-test")) "OpenAI"
       (Some (list_ascii_of_string "gpt-4o")) 1000 = Ok self
     /\ model self = "gpt-4o")
  /\ __init__ (Some (list_ascii_of_string "sk-test")) "OpenAI"
       (Some (list_ascii_of_string "gpt-5")) 1000
     = Raise (AIProviderError "Unsupported model 'gpt-5' for provider 'openai'").
Proof.
  destruct (resolve_then_validate "sk-test" "OpenAI"
              (dict_get SUPPORTED_MODELS "openai" []) 1000)
    as (H1 & H2 & _); [discriminate | reflexivity |].
  split.
  - destruct (H1 "gpt-4o") as [_ (self & I & M & _)]; [reflexivity|].
    exists self. split; assumption.
  - apply (H2 (Some (list_ascii_of_string "gpt-5")) "gpt-5"); reflexivity.
Defined.

(** ** Token limit of the request *)

(** C5. For every constructed analyzer (so for every provider variant and
    every resolved model) and every requested [max_tokens], the request is
    built and the token limit in its payload is the smaller of the requested
    value and the [max_tokens] of the model's catalogue entry; it does not
    exceed the latter. *)
Theorem token_cap_in_request
    (key : option text) (prov : text) (m : option text) (mt : Z)
    (self : AIAnalyzer) (prompt : text) :
  __init__ key prov m mt = Ok self ->
  exists models cfg req,
    dict_lookup SUPPORTED_MODELS (provider self) = Some models
    /\ dict_lookup models (model self) = Some cfg
    /\ build_request self prompt = Ok req
    /\ getpath (req_data req) (token_path (provider self))
       = Ok (JInt (Z.min mt (Config.max_tokens cfg)))
    /\ (Z.min mt (Config.max_tokens cfg) <= Config.max_tokens cfg)%Z.
Proof.
  intros H.
  destruct (init_ok _ _ _ _ _ H) as (k & models & _ & _ & P & _ & C & E & T & _).
  exists models, (model_config self). rewrite E.
  assert (B : exists req, build_request self prompt = Ok req
                /\ getpath (req_data req) (token_path (lower prov))
                   = Ok (JInt (token_cap self))).
  { unfold build_request. rewrite E.
    destruct (supported_provider _ _ P) as [-> | [-> | ->]];
      eexists; (split; [reflexivity|]); reflexivity. }
  destruct B as (req & B & G). exists req.
  unfold token_cap in G. rewrite T in G.
  repeat split; auto. apply Z.le_min_r.
Qed.

(** The statement for the default Anthropic model and a request of 100000
    tokens: the payload carries 8192. *)
Lemma token_cap_in_request_witness :
  exists self req,
    __init__ (Some (list_ascii_of_string "sk-test")) "anthropic" None 100000
      = Ok self
    /\ build_request self "prompt" = Ok req
    /\ getpath (req_data req) [by_key "max_tokens"] = Ok (JInt 8192).
Proof.
  destruct (__init__ (Some (list_ascii_of_string "sk-test")) "anthropic"
              None 100000) as [self|e] eqn:I; [|discriminate I].
  destruct (token_cap_in_request _ _ _ _ self "prompt" I)
    as (models & cfg & req & P & C & B & G & _).
  exists self, req. split; [reflexivity|]. split; [exact B|].
  vm_compute in I. injection I as <-.
  vm_compute in P. injection P as <-.
  vm_compute in C. injection C as <-.
  exact G.
Defined.

(** ** Transport *)

Lemma https_prefix_scheme (url : text) :
  startswith url "https://" = true -> scheme_of url = Some ("https" : text).
Proof.
  intros H. apply startswith_inv in H. destruct H as [rest ->]. reflexivity.
Qed.

(** C7. A request whose URL does not have the scheme [https] is refused
    with the error [Only HTTPS URLs allowed], and the record of network
    activity is left as it was: [urlopen] is not reached, whatever the
    network and the JSON decoder would have done. *)
Theorem insecure_url_refused_before_io
    (urlopen : request -> net_outcome) (json_loads : text -> loads_outcome)
    (req : request) (w : wire) :
  scheme_of (req_url req) <> Some ("https" : text) ->
  _make_request urlopen json_loads req w
    = (Raise (AIProviderError "Only HTTPS URLs allowed"), w).
Proof.
  intros H. unfold _make_request.
  destruct (startswith (req_url req) "https://") eqn:S.
  - elim H. apply https_prefix_scheme. exact S.
  - reflexivity.
Qed.

(** An [https] request does reach the network: it is recorded. *)
Lemma https_request_recorded
    (urlopen : request -> net_outcome) (json_loads : text -> loads_outcome)
    (req : request) (w : wire) :
  startswith (req_url req) "https://" = true ->
  snd (_make_request urlopen json_loads req w) = w ++ [req].
Proof.
  intros H. unfold _make_request. rewrite H. cbn [negb].
  destruct (urlopen req) as [body | code body | msg | msg];
    [destruct (json_loads body)| | |]; reflexivity.
Qed.

(** The statement at a plain [http] URL, with a network that would answer. *)
Lemma insecure_url_refused_before_io_witness :
  _make_request (fun _ => Body "{}") (fun _ => Loaded (JDict []))
    (Request "http://api.openai.com/v1/chat/completions" JNull []) []
  = (Raise (AIProviderError "Only HTTPS URLs allowed"), []).
Proof.
  apply insecure_url_refused_before_io. vm_compute. discriminate.
Defined.

(** ** Envelopes *)

(** C8, on the code.  For the envelope [{"choices": null}] the reply path
    [choices[0].message.content] is absent, and [_parse_response] of the
    OpenAI variant leaves with a [TypeError]: the handler covers [KeyError]
    and [IndexError] only, so the error is not turned into the module's own
    error class.  The same holds of the other two variants with [null] at
    the first key of their paths. *)
Theorem parse_response_null_choices :
  getpath (null_at "choices") path_openai = Raise TypeError
  /\ (self <- analyzer_of "openai" ;;
      _parse_response self (null_at "choices")) = Raise TypeError
  /\ (self <- analyzer_of "anthropic" ;;
      _parse_response self (null_at "content")) = Raise TypeError
  /\ (self <- analyzer_of "gemini" ;;
      _parse_response self (null_at "candidates")) = Raise TypeError.
Proof. repeat split; reflexivity. Qed.

(** An envelope whose path ends at a missing key or a short list is
    reported as an invalid response format, for every provider variant. *)
Lemma parse_response_missing_key
    (self : AIAnalyzer) (response : json) (msg : text) (path : list subscript) :
  (provider self = "openai" /\ path = path_openai
   \/ provider self = "anthropic" /\ path = path_anthropic
   \/ provider self = "gemini" /\ path = path_gemini) ->
  (getpath response path = Raise (KeyError msg)
   \/ getpath response path = Raise (IndexError msg)) ->
  _parse_response self response
    = Raise (AIProviderError ("Invalid response format: " ++ msg)).
Proof.
  intros P G. unfold _parse_response, parse_body.
  destruct P as [[-> ->] | [[-> ->] | [-> ->]]]; cbn [text_eqb];
    repeat case_text_eqb; try congruence; try discriminate;
    destruct G as [-> | ->]; reflexivity.
Qed.

(** ** The prompt *)

Lemma occurs_in_contains (sub s : text) :
  occurs_in sub s -> contains s sub = true.
Proof.
  intros (pre & post & ->). induction pre as [|c pre IH].
  - destruct (sub ++ post) eqn:E; simpl; rewrite <- E;
      rewrite startswith_app; reflexivity.
  - simpl. change (contains (pre ++ sub ++ post) sub) with
      (contains (pre ++ sub ++ post) sub).
    destruct (startswith (c :: pre ++ sub ++ post) sub); [reflexivity|].
    exact IH.
Qed.

(** The first eight lines of the template, joined. *)
Lemma prompt_layout (pipeline branch command exit_status phase log : text) :
  join [nl] (prompt_lines pipeline branch command exit_status phase log)
  = PROMPT_HEAD
    ++ "- Pipeline: " ++ pipeline ++ [nl]
    ++ "- Branch: " ++ branch ++ [nl]
    ++ "- Command: " ++ command ++ [nl]
    ++ "- Exit Status: " ++ exit_status ++ [nl]
    ++ "- Phase: " ++ phase ++ [nl]
    ++ join [nl] (skipn 8 (prompt_lines [] [] [] [] [] log)).
Proof. vm_compute. reflexivity. Qed.

(** C3, as the code has it.  For every context the prompt starts with the
    fixed head followed by the five lines of build metadata, in this order:
    pipeline, branch, command, exit status, phase.  Each line shows the
    field's value when the context has it.  An absent pipeline, branch,
    command or exit status is shown as [unknown]; an absent phase is shown
    as [command]. *)
Theorem prompt_embeds_build_metadata (ctx : context) :
  (exists rest,
     _build_prompt ctx
     = PROMPT_HEAD
       ++ "- Pipeline: " ++ shown ctx "pipeline" "unknown" ++ [nl]
       ++ "- Branch: " ++ shown ctx "branch" "unknown" ++ [nl]
       ++ "- Command: " ++ shown ctx "command" "unknown" ++ [nl]
       ++ "- Exit Status: " ++ shown ctx "exit_status" "unknown" ++ [nl]
       ++ "- Phase: " ++ shown ctx "phase" "command" ++ [nl]
       ++ rest)
  /\ (forall d key v absent,
        build_info ctx = Some d -> dict_lookup d key = Some v ->
        shown ctx key absent = v)
  /\ (forall key absent,
        (build_info ctx = None
         \/ exists d, build_info ctx = Some d /\ dict_lookup d key = None) ->
        shown ctx key absent = absent).
Proof.
  split; [|split].
  - eexists. unfold _build_prompt. cbv zeta. rewrite prompt_layout.
    unfold shown, dict_get. destruct (build_info ctx) as [d|]; reflexivity.
  - intros d key v absent B L. unfold shown. rewrite B, L. reflexivity.
  - intros key absent [B | (d & B & L)]; unfold shown; rewrite B;
      [|rewrite L]; reflexivity.
Qed.

(** The statement at a context that names the branch only. *)
Lemma prompt_embeds_build_metadata_witness :
  shown (Context (Some [("branch" : text, "main" : text)]) None)
    "branch" "unknown" = "main"
  /\ shown (Context (Some [("branch" : text, "main" : text)]) None)
       "pipeline" "unknown" = "unknown"
  /\ shown (Context (Some [("branch" : text, "main" : text)]) None)
       "phase" "command" = "command".
Proof.
  destruct (prompt_embeds_build_metadata
              (Context (Some [("branch" : text, "main" : text)]) None))
    as (_ & P & A).
  split; [|split].
  - apply (P [("branch" : text, "main" : text)]); reflexivity.
  - apply A. right. eexists. split; reflexivity.
  - apply A. right. eexists. split; reflexivity.
Defined.

(** With nothing in the context, the phase line reads [command]; the text
    [- Phase: unknown] occurs nowhere in the prompt. *)
Lemma absent_phase_is_not_unknown :
  shown (Context None None) "phase" "command" = "command"
  /\ occurs_in ("- Phase: command" ++ [nl]) (_build_prompt (Context None None))
  /\ ~ occurs_in "- Phase: unknown" (_build_prompt (Context None None)).
Proof.
  split; [reflexivity|]. split.
  - exists (PROMPT_HEAD ++ "- Pipeline: unknown" ++ [nl]
            ++ "- Branch: unknown" ++ [nl] ++ "- Command: unknown" ++ [nl]
            ++ "- Exit Status: unknown" ++ [nl]),
           (join [nl] (skipn 8 (prompt_lines [] [] [] [] [] []))).
    unfold _build_prompt. cbv zeta. rewrite prompt_layout.
    vm_compute. reflexivity.
  - intros H. apply occurs_in_contains in H. vm_compute in H. discriminate H.
Qed.

(** ** Extraction on the sample reply *)

(** C2. The sample reply of the prompt's format gives the four fields. *)
Theorem sample_reply_extraction (tokens : json) :
  _extract_analysis_fields sample_reply tokens
  = Ok (Analysis "Token expired."
          [ "Regenerate token" : text; "Check expiry" : text ]
          85 "high" tokens).
Proof. vm_compute. reflexivity. Qed.

(** ** Trimming and lines *)

Section While.

Context {A : Type} (p : A -> bool).

Lemma takewhile_dropwhile (l : list A) :
  takewhile p l ++ dropwhile p l = l.
Proof.
  induction l as [|x l IH]; simpl; [reflexivity|].
  destruct (p x); simpl; [rewrite IH|]; reflexivity.
Qed.

Lemma takewhile_all (l : list A) :
  Forall (fun x => p x = true) (takewhile p l).
Proof.
  induction l as [|x l IH]; simpl; [constructor|].
  destruct (p x) eqn:E; constructor; assumption.
Qed.

Lemma dropwhile_all (l : list A) :
  Forall (fun x => p x = true) l -> dropwhile p l = [].
Proof.
  induction 1 as [|x l Hx _ IH]; simpl; [reflexivity|].
  rewrite Hx. exact IH.
Qed.

Lemma dropwhile_app_all (a b : list A) :
  Forall (fun x => p x = true) a -> dropwhile p (a ++ b) = dropwhile p b.
Proof.
  induction 1 as [|x l Hx _ IH]; simpl; [reflexivity|].
  rewrite Hx. exact IH.
Qed.

Lemma dropwhile_app_stop (a b : list A) :
  dropwhile p a <> [] -> dropwhile p (a ++ b) = dropwhile p a ++ b.
Proof.
  induction a as [|x a IH]; simpl; [congruence|].
  destruct (p x); [exact IH | reflexivity].
Qed.

Lemma dropwhile_head (l : list A) (x : A) (l' : list A) :
  dropwhile p l = x :: l' -> p x = false.
Proof.
  induction l as [|y l IH]; simpl; [discriminate|].
  destruct (p y) eqn:E; [exact IH|].
  intros H. injection H as -> _. exact E.
Qed.

Lemma dropwhile_idem (l : list A) :
  dropwhile p (dropwhile p l) = dropwhile p l.
Proof.
  destruct (dropwhile p l) as [|x l'] eqn:E; [reflexivity|].
  simpl. rewrite (dropwhile_head _ _ _ E). reflexivity.
Qed.

End While.

Lemma blank_app (a b : text) : blank a -> blank b -> blank (a ++ b).
Proof. intros Ha Hb. apply Forall_app. split; assumption. Qed.

Lemma blank_rev (a : text) : blank a -> blank (rev a).
Proof. apply Forall_rev. Qed.

Lemma lstrip_blank_app (w s : text) : blank w -> lstrip (w ++ s) = lstrip s.
Proof. apply dropwhile_app_all. Qed.

Lemma rstrip_app_blank (s w : text) : blank w -> rstrip (s ++ w) = rstrip s.
Proof.
  intros H. unfold rstrip. rewrite rev_app_distr.
  rewrite dropwhile_app_all; [reflexivity | apply blank_rev; exact H].
Qed.

Lemma strip_blank (w : text) : blank w -> strip w = [].
Proof.
  intros H. unfold strip, lstrip. rewrite (dropwhile_all _ _ H). reflexivity.
Qed.

Lemma strip_blank_app (w s : text) : blank w -> strip (w ++ s) = strip s.
Proof. intros H. unfold strip. rewrite lstrip_blank_app by exact H. reflexivity. Qed.

Lemma strip_app_blank (s w : text) : blank w -> strip (s ++ w) = strip s.
Proof.
  intros H. unfold strip, lstrip.
  destruct (dropwhile isspace s) as [|x s'] eqn:E.
  - assert (B : blank (s ++ w)).
    { apply blank_app; [|exact H].
      rewrite <- (takewhile_dropwhile isspace s), E, app_nil_r.
      apply takewhile_all. }
    rewrite (dropwhile_all _ _ B). reflexivity.
  - rewrite dropwhile_app_stop by (rewrite E; discriminate).
    rewrite E. apply rstrip_app_blank. exact H.
Qed.

(** A text is its trimmed form between two runs of whitespace. *)
Lemma strip_split (s : text) :
  exists w1 w2, blank w1 /\ blank w2 /\ s = w1 ++ strip s ++ w2.
Proof.
  exists (takewhile isspace s),
         (rev (takewhile isspace (rev (lstrip s)))).
  split; [apply takewhile_all|]. split; [apply blank_rev, takewhile_all|].
  unfold strip, rstrip. rewrite <- rev_app_distr.
  rewrite takewhile_dropwhile, rev_involutive.
  symmetry. apply takewhile_dropwhile.
Qed.

(** The trimmed form has no whitespace at either end. *)
Lemma strip_head (s : text) (c : ascii) (t : text) :
  strip s = c :: t -> isspace c = false.
Proof.
  unfold strip, rstrip, lstrip. intros H.
  destruct (dropwhile isspace s) as [|x s'] eqn:E; [discriminate H|].
  pose proof (dropwhile_head _ _ _ _ E) as Hx.
  destruct (dropwhile isspace (rev (x :: s'))) as [|y r] eqn:D.
  - discriminate H.
  - pose proof (takewhile_dropwhile isspace (rev (x :: s'))) as TD.
    rewrite D in TD. apply (f_equal (@rev ascii)) in TD.
    rewrite rev_app_distr, rev_involutive in TD. rewrite H in TD.
    simpl in TD. injection TD as -> _. exact Hx.
Qed.

Lemma strip_last (s t : text) (c : ascii) :
  strip s = t ++ [c] -> isspace c = false.
Proof.
  unfold strip, rstrip. intros H.
  apply (f_equal (@rev ascii)) in H.
  rewrite rev_involutive, rev_app_distr in H. simpl in H.
  exact (dropwhile_head _ _ _ _ H).
Qed.

Lemma split_on_nonempty (sep : ascii) (s : text) : split_on sep s <> [].
Proof.
  destruct s as [|c s]; simpl; [discriminate|].
  destruct (ascii_dec c sep); [discriminate|].
  destruct (split_on sep s); discriminate.
Qed.

Lemma split_on_hd_tl (sep : ascii) (s : text) :
  split_on sep s = hd [] (split_on sep s) :: tl (split_on sep s).
Proof.
  pose proof (split_on_nonempty sep s) as H.
  destruct (split_on sep s); [congruence | reflexivity].
Qed.

(** Splitting a concatenation: the last line of the first part and the
    first line of the second part are one line. *)
Lemma split_on_app (sep : ascii) (a b : text) :
  split_on sep (a ++ b)
  = removelast (split_on sep a)
    ++ (last (split_on sep a) [] ++ hd [] (split_on sep b))
       :: tl (split_on sep b).
Proof.
  induction a as [|c a IH].
  - simpl. apply split_on_hd_tl.
  - cbn [app split_on]. rewrite IH.
    pose proof (split_on_nonempty sep a) as N.
    destruct (split_on sep a) as [|l0 [|l1 ls]]; [congruence | |];
      destruct (ascii_dec c sep); reflexivity.
Qed.

Lemma split_on_blank (w : text) : blank w -> Forall blank (split_on nl w).
Proof.
  induction 1 as [|c w Hc Hw IH]; simpl.
  - repeat constructor.
  - destruct (ascii_dec c nl).
    + constructor; [constructor | exact IH].
    + destruct (split_on nl w) as [|l ls]; [repeat constructor; assumption|].
      inversion IH; subst. constructor; [constructor|]; assumption.
Qed.

Lemma Forall_removelast {A} (P : A -> Prop) (l : list A) :
  Forall P l -> Forall P (removelast l).
Proof.
  induction 1 as [|x l Hx Hl IH]; simpl; [constructor|].
  destruct l; [constructor|]. constructor; assumption.
Qed.

Lemma Forall_last {A} (P : A -> Prop) (l : list A) (d : A) :
  P d -> Forall P l -> P (last l d).
Proof.
  intros Hd. induction 1 as [|x l Hx Hl IH]; simpl; [exact Hd|].
  destruct l; assumption.
Qed.

Lemma first_long_line_find (lines : list text) :
  first_long_line lines
  = match find long_enough (map strip lines) with
    | Some t => t
    | None => FALLBACK_ROOT_CAUSE
    end.
Proof.
  induction lines as [|l ls IH]; simpl; [reflexivity|].
  unfold long_enough at 1.
  destruct (truthy (strip l) && (10 <? len (strip l))); [reflexivity|].
  exact IH.
Qed.

Lemma find_app_first {A} (f : A -> bool) (a b : list A) :
  find f (a ++ b)
  = match find f a with Some x => Some x | None => find f b end.
Proof.
  induction a as [|x a IH]; simpl; [reflexivity|].
  destruct (f x); [reflexivity | exact IH].
Qed.

Lemma find_blank_lines (ls : list text) :
  Forall blank ls -> find long_enough (map strip ls) = None.
Proof.
  induction 1 as [|l ls Hl _ IH]; simpl; [reflexivity|].
  rewrite (strip_blank _ Hl). exact IH.
Qed.

Lemma find_lines_blank_prefix (w s : text) :
  blank w ->
  find long_enough (map strip (split_on nl (w ++ s)))
  = find long_enough (map strip (split_on nl s)).
Proof.
  intros B. pose proof (split_on_blank _ B) as L.
  rewrite split_on_app, map_app, find_app_first.
  rewrite find_blank_lines by (apply Forall_removelast; exact L).
  pose proof (split_on_nonempty nl s) as N.
  destruct (split_on nl s) as [|h t]; [congruence|]. cbn [hd tl map].
  rewrite strip_blank_app; [reflexivity|].
  apply Forall_last; [constructor | exact L].
Qed.

Lemma find_lines_blank_suffix (s w : text) :
  blank w ->
  find long_enough (map strip (split_on nl (s ++ w)))
  = find long_enough (map strip (split_on nl s)).
Proof.
  intros B. pose proof (split_on_blank _ B) as L.
  rewrite (split_on_hd_tl nl w) in L. inversion L as [|? ? Lh Lt]; subst.
  rewrite split_on_app, map_app, find_app_first. cbn [map find].
  rewrite strip_app_blank by exact Lh.
  rewrite (find_blank_lines _ Lt).
  pose proof (app_removelast_last [] (split_on_nonempty nl s)) as R.
  remember (removelast (split_on nl s)) as init eqn:Hi.
  remember (last (split_on nl s) []) as final eqn:Hf.
  assert (R' : split_on nl s = init ++ [final])
    by (rewrite Hi, Hf; exact R).
  rewrite R', map_app, find_app_first. cbn [map find].
  destruct (find long_enough (map strip init)); [reflexivity|].
  destruct (long_enough (strip final)); reflexivity.
Qed.

(** The fallback reads the same root cause from the lines of the trimmed
    text as from the lines of the text itself. *)
Lemma first_long_line_strip (s : text) :
  first_long_line (split_on nl (strip s)) = first_long_line (split_on nl s).
Proof.
  rewrite !first_long_line_find.
  destruct (strip_split s) as (w1 & w2 & B1 & B2 & E).
  rewrite E at 2.
  rewrite find_lines_blank_prefix by exact B1.
  rewrite find_lines_blank_suffix by exact B2.
  reflexivity.
Qed.

(** ** The fallback of the extraction *)

Lemma long_enough_len (t : text) : long_enough t = true <-> 10 < len t.
Proof.
  unfold long_enough. rewrite andb_true_iff, Nat.ltb_lt. split.
  - intros [_ H]. exact H.
  - intros H. split; [|exact H]. destruct t; [simpl in H; lia | reflexivity].
Qed.

Lemma first_long_line_spec (lines : list text) :
  first_long lines (first_long_line lines).
Proof.
  induction lines as [|l ls IH]; simpl.
  - right. split; [intros l []|reflexivity].
  - fold (long_enough (strip l)).
    destruct (long_enough (strip l)) eqn:E.
    + apply long_enough_len in E. left. exists 0, l.
      repeat split; auto. intros j l' Hj. lia.
    + assert (Hs : len (strip l) <= 10).
      { destruct (le_lt_dec (len (strip l)) 10) as [H|H]; [exact H|].
        apply long_enough_len in H. congruence. }
      destruct IH as [(i & line & N & L & R & F) | [F R]].
      * left. exists (S i), line. repeat split; auto.
        intros [|j] l' Hj Hn; simpl in Hn.
        -- injection Hn as <-. exact Hs.
        -- apply (F j); [lia | exact Hn].
      * right. split; [|exact R].
        intros l' [<- | H]; [exact Hs | apply F; exact H].
Qed.

Lemma first_long_nonempty (lines : list text) (r : text) :
  first_long lines r -> r <> [].
Proof.
  intros [(i & line & _ & L & -> & _) | [_ ->]].
  - destruct (strip line); [simpl in L; lia | discriminate].
  - discriminate.
Qed.

(** The extraction returns when the conversion of the confidence does, and
    raises what that raises. *)
Lemma extract_raises (content : text) (tokens : json) (e : exn) :
  scan_confidence content = Raise e ->
  _extract_analysis_fields content tokens = Raise e.
Proof.
  intros C. unfold _extract_analysis_fields. cbv zeta. rewrite C. reflexivity.
Qed.

(** The two branches of [_extract_analysis_fields]. *)
Lemma extract_fallback (content : text) (tokens : json) (c : Z) :
  scan_confidence content = Ok c ->
  scan_root_cause content = [] -> scan_fixes content = [] ->
  _extract_analysis_fields content tokens
  = Ok (Analysis (first_long_line (split_on nl content)) FALLBACK_FIXES
          c (scan_severity content) tokens).
Proof.
  intros C R F. unfold _extract_analysis_fields. cbv zeta. rewrite C.
  cbn [bind root_cause suggested_fixes confidence severity tokens_used].
  rewrite R, F. cbn [truthy negb andb].
  pose proof (split_on_nonempty nl (strip content)) as N.
  destruct (split_on nl (strip content)) eqn:E; [congruence|].
  cbn [truthy]. rewrite <- E, first_long_line_strip. reflexivity.
Qed.

Lemma extract_labelled (content : text) (tokens : json) (c : Z) :
  scan_confidence content = Ok c ->
  ~ (scan_root_cause content = [] /\ scan_fixes content = []) ->
  _extract_analysis_fields content tokens
  = Ok (Analysis (scan_root_cause content) (scan_fixes content)
          c (scan_severity content) tokens).
Proof.
  intros C H. unfold _extract_analysis_fields. cbv zeta. rewrite C.
  cbn [bind root_cause suggested_fixes].
  destruct (scan_root_cause content); destruct (scan_fixes content);
    cbn [truthy negb andb]; try reflexivity.
  elim H. split; reflexivity.
Qed.

(** A returned analysis is that of one of the two branches. *)
Lemma extract_ok_inv (content : text) (tokens : json) (a : analysis) :
  _extract_analysis_fields content tokens = Ok a ->
  exists c,
    scan_confidence content = Ok c
    /\ ((scan_root_cause content = [] /\ scan_fixes content = []
         /\ a = Analysis (first_long_line (split_on nl content))
                  FALLBACK_FIXES c (scan_severity content) tokens)
        \/ (~ (scan_root_cause content = [] /\ scan_fixes content = [])
            /\ a = Analysis (scan_root_cause content) (scan_fixes content)
                     c (scan_severity content) tokens)).
Proof.
  intros A.
  destruct (scan_confidence content) as [c|e] eqn:C.
  - exists c. split; [reflexivity|].
    assert (D : (scan_root_cause content = [] /\ scan_fixes content = [])
                \/ ~ (scan_root_cause content = []
                      /\ scan_fixes content = [])).
    { destruct (scan_root_cause content); destruct (scan_fixes content);
        (left; split; reflexivity) || (right; intros [? ?]; discriminate). }
    destruct D as [[R F] | H].
    + left. rewrite (extract_fallback _ tokens _ C R F) in A.
      injection A as <-. auto.
    + right. rewrite (extract_labelled _ tokens _ C H) in A.
      injection A as <-. auto.
  - rewrite (extract_raises _ tokens _ C) in A. discriminate A.
Qed.

(** A returned analysis carries the converted confidence. *)
Lemma extract_ok_confidence (content : text) (tokens : json) (a : analysis) :
  _extract_analysis_fields content tokens = Ok a ->
  scan_confidence content = Ok (confidence a).
Proof.
  unfold _extract_analysis_fields. cbv zeta.
  destruct (scan_confidence content) as [c|e]; cbn [bind];
    [|intros H; discriminate H].
  cbn [root_cause suggested_fixes confidence].
  destruct (negb (truthy (scan_root_cause content))
            && negb (truthy (scan_fixes content)));
    intros H; injection H as <-; reflexivity.
Qed.

(** The extraction of [fixes_only_reply] has an empty root cause: the
    fallback needs both fields to be empty. *)
Lemma empty_root_cause_returned :
  exists a,
    _extract_analysis_fields fixes_only_reply JNull = Ok a
    /\ root_cause a = []
    /\ suggested_fixes a = [ "Restart the agent" : text ].
Proof. eexists. split; [vm_compute; reflexivity|]. split; reflexivity. Qed.

(** C1, as the code has it.  When the labelled scans leave both the root
    cause and the fixes empty, the root cause is the trimmed form of the
    first line of the text whose trimmed form is longer than 10 characters,
    or the fixed literal when no line is, and the fixes are the fixed
    fallback list; the root cause is then not empty.  Otherwise the result
    carries the scanned root cause and fixes as they are.  So the extraction
    never returns an empty root cause together with an empty list of fixes,
    while an empty root cause next to scanned fixes is possible. *)
Theorem fallback_extraction (content : text) (tokens : json) (a : analysis) :
  _extract_analysis_fields content tokens = Ok a ->
  (scan_root_cause content = [] -> scan_fixes content = [] ->
     first_long (split_on nl content) (root_cause a)
     /\ suggested_fixes a = FALLBACK_FIXES
     /\ root_cause a <> [])
  /\ (~ (scan_root_cause content = [] /\ scan_fixes content = []) ->
        root_cause a = scan_root_cause content
        /\ suggested_fixes a = scan_fixes content)
  /\ (root_cause a = [] -> suggested_fixes a <> []).
Proof.
  intros A. pose proof (extract_ok_confidence _ _ _ A) as C.
  assert (D : (scan_root_cause content = [] /\ scan_fixes content = [])
              \/ ~ (scan_root_cause content = [] /\ scan_fixes content = [])).
  { destruct (scan_root_cause content); destruct (scan_fixes content);
      (left; split; reflexivity) || (right; intros [? ?]; discriminate). }
  split; [|split].
  - intros R F. rewrite (extract_fallback _ tokens _ C R F) in A.
    injection A as <-. cbn [root_cause suggested_fixes].
    pose proof (first_long_line_spec (split_on nl content)) as S.
    repeat split; [exact S | exact (first_long_nonempty _ _ S)].
  - intros H. rewrite (extract_labelled _ tokens _ C H) in A.
    injection A as <-. split; reflexivity.
  - destruct D as [[R F] | H].
    + rewrite (extract_fallback _ tokens _ C R F) in A. injection A as <-.
      cbn [root_cause suggested_fixes]. intros _. discriminate.
    + rewrite (extract_labelled _ tokens _ C H) in A. injection A as <-.
      cbn [root_cause suggested_fixes].
      intros R F. apply H. split; assumption.
Qed.

(** The statement at a reply of one sentence without any label. *)
Lemma fallback_extraction_witness :
  _extract_analysis_fields "The agent ran out of disk space" JNull
  = Ok (Analysis "The agent ran out of disk space" FALLBACK_FIXES
          50 "medium" JNull)
  /\ first_long (split_on nl "The agent ran out of disk space")
       "The agent ran out of disk space".
Proof.
  assert (A : _extract_analysis_fields "The agent ran out of disk space" JNull
              = Ok (Analysis "The agent ran out of disk space" FALLBACK_FIXES
                      50 "medium" JNull))
    by (vm_compute; reflexivity).
  split; [exact A|].
  destruct (fallback_extraction "The agent ran out of disk space" JNull _ A)
    as [H _].
  destruct H as (L & _ & _); [reflexivity | reflexivity |]. exact L.
Defined.

(** ** The matcher on the module's patterns *)

Lemma orelse_none_r {A} (a : option A) : orelse a None = a.
Proof. destruct a; reflexivity. Qed.



Section MatcherLemmas.

Variable fl : flags.

Lemma bt_lit (l : text) (k : mstate -> option mstate)
    (p : option ascii) (s : text) (g : option text) :
  bt fl (lit l) k (MState p s g)
  = match lit_prefix fl l p s with
    | Some (p', s') => k (MState p' s' g)
    | None => None
    end.
Proof.
  revert p s. induction l as [|c l IH]; intros p s; [reflexivity|].
  cbn [lit bt lit_prefix m_rest m_grp].
  destruct s as [|x s]; [reflexivity|].
  destruct (cls_match fl (c_chr c) x); [apply IH | reflexivity].
Qed.

(** A greedy repetition whose continuation cannot start with a character
    of the class stops only where the class stops. *)
Lemma rep_star_greedy_skip (m : ascii -> bool)
    (k : mstate -> option mstate) (g : option text) :
  (forall p c s, m c = true -> k (MState p (c :: s) g) = None) ->
  forall p s,
    rep_star m true k g p s
    = k (MState (prev_after p (takewhile m s)) (dropwhile m s) g).
Proof.
  intros K p s. revert p. induction s as [|c s IH]; intros p; simpl.
  - reflexivity.
  - destruct (m c) eqn:E; [|reflexivity].
    rewrite IH, (K p c s E). apply orelse_none_r.
Qed.

(** A greedy repetition takes the longest run when the continuation
    accepts there. *)
Lemma rep_star_greedy_max (m : ascii -> bool)
    (k : mstate -> option mstate) (g : option text)
    (p : option ascii) (s : text) (x : mstate) :
  k (MState (prev_after p (takewhile m s)) (dropwhile m s) g) = Some x ->
  rep_star m true k g p s = Some x.
Proof.
  revert p. induction s as [|c s IH]; intros p; simpl.
  - auto.
  - destruct (m c) eqn:E; [|auto].
    intros H. rewrite (IH _ H). reflexivity.
Qed.




(** The fuel of [findall_from] and [sub_from] is never used up: any amount
    above the length of the text gives the same result. *)
Lemma findall_fuel (r : re) (f1 f2 : nat) (p : option ascii) (s : text) :
  len s < f1 -> len s < f2 ->
  findall_from fl f1 r p s = findall_from fl f2 r p s.
Proof.
  revert f2 p s. induction f1 as [|f1 IH]; intros f2 p s L1 L2; [lia|].
  destruct f2 as [|f2]; [lia|]. cbn [findall_from].
  destruct (match_here fl r p s) as [st|].
  - f_equal. destruct (len (m_rest st) <? len s) eqn:E.
    + apply Nat.ltb_lt in E. apply IH; lia.
    + destruct s as [|c s]; [reflexivity|]. simpl in *. apply IH; lia.
  - destruct s as [|c s]; [reflexivity|]. simpl in *. apply IH; lia.
Qed.

Lemma sub_fuel (r : re) (repl : text) (f1 f2 : nat) (p : option ascii)
    (s : text) :
  len s < f1 -> len s < f2 ->
  sub_from fl f1 r repl p s = sub_from fl f2 r repl p s.
Proof.
  revert f2 p s. induction f1 as [|f1 IH]; intros f2 p s L1 L2; [lia|].
  destruct f2 as [|f2]; [lia|]. cbn [sub_from].
  destruct (match_here fl r p s) as [st|].
  - destruct (len (m_rest st) <? len s) eqn:E.
    + apply Nat.ltb_lt in E. f_equal. apply IH; lia.
    + destruct s as [|c s]; [reflexivity|]. simpl in *.
      f_equal. apply IH; lia.
  - destruct s as [|c s]; [reflexivity|]. simpl in *. f_equal. apply IH; lia.
Qed.

End MatcherLemmas.

Lemma search_from_first_suffix (fl : flags) (r : re)
    (f : text -> option text) :
  (forall p s, option_map group1 (match_here fl r p s) = f s) ->
  forall p s, option_map group1 (search_from fl r p s) = first_suffix f s.
Proof.
  intros H p s. revert p. induction s as [|c s IH]; intros p; simpl;
    rewrite <- (H p); destruct (match_here fl r p _); simpl; auto.
Qed.

Lemma first_suffix_some {A} (f : text -> option A) (s : text) (x : A) :
  first_suffix f s = Some x <->
  exists pre t,
    s = pre ++ t /\ f t = Some x
    /\ forall pre' t', s = pre' ++ t' -> len pre' < len pre -> f t' = None.
Proof.
  split.
  - induction s as [|c s IH]; simpl.
    + destruct (f []) eqn:E; [|discriminate]. intros H. injection H as ->.
      exists [], []. repeat split; auto. simpl. intros; lia.
    + destruct (f (c :: s)) eqn:E.
      * intros H. injection H as ->. exists [], (c :: s).
        repeat split; auto. simpl. intros; lia.
      * intros H. destruct (IH H) as (pre & t & -> & Ft & Min).
        exists (c :: pre), t. repeat split; auto.
        intros [|d pre'] t' Ht Hl; simpl in *.
        -- subst t'. exact E.
        -- injection Ht as <- Ht. apply (Min pre' t' Ht). lia.
  - intros (pre & t & -> & Ft & Min).
    induction pre as [|c pre IH]; simpl.
    + destruct t; simpl; rewrite Ft; reflexivity.
    + rewrite (Min [] (c :: pre ++ t)); [|reflexivity | simpl; lia].
      apply IH. intros pre' t' Ht Hl.
      apply (Min (c :: pre') t'); simpl; [rewrite Ht; reflexivity | lia].
Qed.

Lemma first_suffix_none {A} (f : text -> option A) (s : text) :
  first_suffix f s = None <-> forall pre t, s = pre ++ t -> f t = None.
Proof.
  split.
  - induction s as [|c s IH]; simpl.
    + destruct (f []) eqn:E; [discriminate|].
      intros _ pre t Ht. symmetry in Ht. apply app_eq_nil in Ht.
      destruct Ht as [_ ->]. exact E.
    + destruct (f (c :: s)) eqn:E; [discriminate|].
      intros H [|d pre] t Ht; simpl in Ht.
      * subst t. exact E.
      * injection Ht as _ Ht. apply (IH H pre t Ht).
  - intros H. induction s as [|c s IH]; simpl.
    + rewrite (H [] []); reflexivity.
    + rewrite (H [] (c :: s)); [|reflexivity].
      apply IH. intros pre t Ht. apply (H (c :: pre) t).
      simpl. rewrite Ht. reflexivity.
Qed.

(** *** The confidence pattern *)

Lemma is_sep_spec (c : ascii) :
  is_sep c = (if ascii_dec c ":" then true else false) || isspace c.
Proof. destruct c as [[] [] [] [] [] [] [] []]; reflexivity. Qed.

Lemma is_sep_not_digit (c : ascii) : is_sep c = true -> isdigit c = false.
Proof.
  destruct c as [[] [] [] [] [] [] [] []]; vm_compute; congruence.
Qed.

Lemma is_sep_flags (c : ascii) : cls_match I_S colon_or_space c = is_sep c.
Proof. reflexivity. Qed.

Lemma firstn_takewhile {A} (p : A -> bool) (s : list A) :
  firstn (len s - len (dropwhile p s)) s = takewhile p s.
Proof.
  rewrite <- (takewhile_dropwhile p s) at 1 3.
  rewrite length_app, Nat.add_sub, firstn_app, Nat.sub_diag, firstn_all.
  simpl. apply app_nil_r.
Qed.

(** An optional class after the group keeps the group. *)
Lemma rep_opt_group (m : ascii -> bool)
    (p : option ascii) (s : text) (g : option text) :
  exists y, rep m q_opt true Some (MState p s g) = Some y /\ m_grp y = g.
Proof.
  unfold rep. cbn [m_rest m_grp m_prev].
  destruct s as [|c s]; [eexists; split; reflexivity|].
  destruct (m c); eexists; split; reflexivity.
Qed.

(** The group [(\d+)] followed by [%?]: the longest run of digits. *)
Lemma digits_group_here (p : option ascii) (s : text) (g : option text) :
  option_map group1
    (bt I_ (r_seq (r_grp (r_rep c_digit q_plus true))
                  (r_rep (c_chr "%") q_opt true)) Some (MState p s g))
  = match takewhile isdigit s with
    | [] => None
    | ds => Some ds
    end.
Proof.
  cbn [bt rep m_rest m_grp m_prev cls_match].
  destruct s as [|c s]; [reflexivity|]. cbn [takewhile].
  destruct (isdigit c) eqn:D; [|reflexivity].
  match goal with
  | |- option_map _ (rep_star _ _ ?k _ _ _) = _ => set (K := k)
  end.
  destruct (rep_opt_group (cls_match I_ (c_chr "%"))
              (prev_after (Some c) (takewhile isdigit s))
              (dropwhile isdigit s)
              (Some (firstn (len (c :: s) - len (dropwhile isdigit s))
                       (c :: s)))) as (y & Hy & Gy).
  change (fun x : ascii => isdigit x) with isdigit.
  rewrite (rep_star_greedy_max isdigit K g (Some c) s y) by exact Hy.
  cbn [option_map]. unfold group1. rewrite Gy. f_equal.
  assert (L : len (dropwhile isdigit s) <= len s).
  { rewrite <- (takewhile_dropwhile isdigit s) at 2.
    rewrite length_app. lia. }
  cbn [Datatypes.length]. rewrite Nat.sub_succ_l by exact L.
  cbn [firstn]. f_equal. apply firstn_takewhile.
Qed.

Lemma lit_prefix_prev (fl : flags) (l : text) (p q : option ascii) (s : text) :
  option_map snd (lit_prefix fl l p s) = option_map snd (lit_prefix fl l q s).
Proof.
  revert p q s. induction l as [|c l IH]; intros p q s; simpl; [reflexivity|].
  destruct s as [|x s]; [reflexivity|].
  destruct (cls_match fl (c_chr c) x); reflexivity.
Qed.

Lemma option_map_none {A B} (f : A -> B) (x : option A) :
  option_map f x = None -> x = None.
Proof. destruct x; [discriminate | reflexivity]. Qed.

Lemma match_here_confidence (p : option ascii) (s : text) :
  option_map group1 (match_here I_ RE_CONFIDENCE p s) = confidence_here s.
Proof.
  unfold match_here, RE_CONFIDENCE, confidence_here. cbn [bt].
  rewrite bt_lit.
  pose proof (lit_prefix_prev I_ "CONFIDENCE" p None s) as Q.
  destruct (lit_prefix I_ "CONFIDENCE" p s) as [[p1 s1]|];
    destruct (lit_prefix I_ "CONFIDENCE" None s) as [[p2 s2]|];
    try discriminate Q; [|reflexivity].
  injection Q as ->.
  change (rep (cls_match I_ colon_or_space) q_star true ?k
            (MState p1 s2 None))
    with (rep_star is_sep true k None p1 s2).
  rewrite rep_star_greedy_skip.
  - exact (digits_group_here _ _ _).
  - intros q c t Hc. apply (option_map_none group1).
    etransitivity; [exact (digits_group_here q (c :: t) None)|].
    cbn [takewhile]. rewrite (is_sep_not_digit _ Hc). reflexivity.
Qed.

(** [re.search] with the confidence pattern finds the first place, from
    the left, where the text reads label, separators, integer. *)
Lemma search_confidence (content : text) :
  re_search I_ RE_CONFIDENCE content = first_suffix confidence_here content.
Proof.
  unfold re_search. apply search_from_first_suffix.
  exact match_here_confidence.
Qed.

Lemma cls_match_chr_I (fl : flags) (c x : ascii) :
  IGNORECASE fl = true ->
  (cls_match fl (c_chr c) x = true <-> lower_char x = lower_char c).
Proof.
  intros I. cbn [cls_match]. rewrite I.
  destruct (ascii_dec (lower_char x) (lower_char c)); split; congruence.
Qed.

(** Under [IGNORECASE] a literal reads a text that is equal to it up to
    letter case. *)
Lemma lit_prefix_inv (fl : flags) (l : text) (p p' : option ascii)
    (s s' : text) :
  IGNORECASE fl = true ->
  lit_prefix fl l p s = Some (p', s') ->
  exists lab, s = lab ++ s' /\ lower lab = lower l.
Proof.
  intros I. revert p s. induction l as [|c l IH]; intros p s; cbn [lit_prefix].
  - intros H. injection H as _ ->. exists []. split; reflexivity.
  - destruct s as [|x s]; [intros H; discriminate H|].
    destruct (cls_match fl (c_chr c) x) eqn:E; [|intros H; discriminate H].
    apply (cls_match_chr_I fl c x I) in E. intros H.
    destruct (IH _ _ H) as (lab & -> & L).
    exists (x :: lab). simpl. rewrite E, L. split; reflexivity.
Qed.

Lemma lit_prefix_intro (fl : flags) (l lab : text) (p : option ascii)
    (s' : text) :
  IGNORECASE fl = true ->
  lower lab = lower l ->
  exists p', lit_prefix fl l p (lab ++ s') = Some (p', s').
Proof.
  intros I. revert p lab. induction l as [|c l IH]; intros p lab L.
  - destruct lab; [|discriminate]. exists p. reflexivity.
  - destruct lab as [|x lab]; [discriminate|].
    simpl in L. injection L as Lx L.
    cbn [lit_prefix app]. apply (cls_match_chr_I fl c x I) in Lx. rewrite Lx.
    apply IH. exact L.
Qed.

Lemma takewhile_app_all {A} (p : A -> bool) (a b : list A) :
  Forall (fun x => p x = true) a -> takewhile p (a ++ b) = a ++ takewhile p b.
Proof.
  induction 1 as [|x a Hx _ IH]; simpl; [reflexivity|].
  rewrite Hx, IH. reflexivity.
Qed.

Lemma confidence_here_spec (s ds : text) :
  confidence_here s = Some ds <-> confidence_label_at s ds.
Proof.
  unfold confidence_here, confidence_label_at. split.
  - destruct (lit_prefix I_ "CONFIDENCE" None s) as [[p1 s1]|] eqn:L;
      [|intros H; discriminate H].
    destruct (lit_prefix_inv I_ _ _ _ _ _ eq_refl L) as (lab & -> & Hl).
    intros H.
    exists lab, (takewhile is_sep s1),
           (dropwhile isdigit (dropwhile is_sep s1)).
    assert (E : takewhile isdigit (dropwhile is_sep s1) = ds).
    { destruct (takewhile isdigit (dropwhile is_sep s1));
        [discriminate | injection H as <-; reflexivity]. }
    repeat split.
    + rewrite <- E, takewhile_dropwhile, takewhile_dropwhile. reflexivity.
    + exact Hl.
    + apply takewhile_all.
    + intros ->. rewrite E in H. discriminate H.
    + rewrite <- E. apply takewhile_all.
    + destruct (dropwhile isdigit (dropwhile is_sep s1)) as [|c r] eqn:D;
        [exact I | exact (dropwhile_head _ _ _ _ D)].
  - intros (lab & sep & rest & -> & Hl & Hs & Hn & Hd & Hr).
    destruct (lit_prefix_intro I_ "CONFIDENCE" lab None (sep ++ ds ++ rest)
                eq_refl Hl) as [p' ->].
    rewrite dropwhile_app_all by exact Hs.
    destruct ds as [|d ds]; [congruence|].
    inversion Hd as [|? ? Hd1 Hd2]; subst.
    assert (S : is_sep d = false).
    { destruct (is_sep d) eqn:E; [|reflexivity].
      apply is_sep_not_digit in E. congruence. }
    cbn [app dropwhile]. rewrite S. cbn [takewhile]. rewrite Hd1.
    rewrite takewhile_app_all by exact Hd2.
    destruct rest as [|c rest]; cbn [takewhile];
      [|rewrite Hr]; rewrite app_nil_r; reflexivity.
Qed.

Lemma int_of_digits_nonneg (ds : text) :
  Forall (fun c => isdigit c = true) ds -> (0 <= int_of_digits ds)%Z.
Proof.
  unfold int_of_digits.
  assert (G : forall acc, (0 <= acc)%Z ->
                Forall (fun c => isdigit c = true) ds ->
                (0 <= fold_left (fun a c => (10 * a + digit_val c)%Z) ds acc)%Z).
  { induction ds as [|c ds IH]; intros acc Ha Hd; cbn [fold_left];
      [exact Ha|].
    inversion Hd as [|? ? Hc Hds]; subst. apply IH; [|exact Hds].
    assert (0 <= digit_val c)%Z.
    { unfold isdigit in Hc. apply andb_true_iff in Hc. destruct Hc as [Hc _].
      apply Nat.leb_le in Hc. unfold digit_val. lia. }
    lia. }
  intros H. apply G; [lia | exact H].
Qed.


Lemma int_beyond_limit_clamp (ds : text) :
  INT_MAX_STR_DIGITS < len ds -> clamp_confidence ds = Raise ValueError.
Proof.
  intros L. unfold clamp_confidence, int. apply Nat.ltb_lt in L.
  rewrite L. reflexivity.
Qed.

(** The confidence read at the first label place. *)
Lemma scan_confidence_first (content pre s ds : text) :
  content = pre ++ s ->
  confidence_label_at s ds ->
  (forall pre' s' ds',
      content = pre' ++ s' -> len pre' < len pre ->
      ~ confidence_label_at s' ds') ->
  scan_confidence content = clamp_confidence ds.
Proof.
  intros E L Min. unfold scan_confidence. rewrite search_confidence.
  assert (F : first_suffix confidence_here content = Some ds).
  { apply first_suffix_some. exists pre, s. repeat split; auto.
    - apply confidence_here_spec. exact L.
    - intros pre' s' E' Hl.
      destruct (confidence_here s') as [ds'|] eqn:C; [|reflexivity].
      apply confidence_here_spec in C. elim (Min pre' s' ds' E' Hl C). }
  rewrite F. reflexivity.
Qed.


(** The conversion of the confidence raises nothing but [ValueError], and a
    converted confidence lies in 0..100. *)
Lemma scan_confidence_outcome (content : text) :
  (exists c, scan_confidence content = Ok c /\ (0 <= c <= 100)%Z)
  \/ scan_confidence content = Raise ValueError.
Proof.
  unfold scan_confidence.
  destruct (re_search I_ RE_CONFIDENCE content) as [ds|];
    [|left; exists 50%Z; split; [reflexivity | lia]].
  unfold clamp_confidence, int.
  destruct (INT_MAX_STR_DIGITS <? len ds); [right; reflexivity|].
  left. eexists. split; [reflexivity | lia].
Qed.


(** C6, on the code.  The reply [long_confidence_reply] shows the label
    [CONFIDENCE] and an integer of 4301 digits: the conversion refuses it,
    and the extraction raises [ValueError] where the claim has the
    confidence 100. *)
Theorem confidence_beyond_int_limit (tokens : json) :
  _extract_analysis_fields long_confidence_reply tokens = Raise ValueError.
Proof.
  apply extract_raises.
  rewrite (scan_confidence_first long_confidence_reply []
             long_confidence_reply (repeat "9"%char 4301) eq_refl).
  - apply int_beyond_limit_clamp. rewrite repeat_length.
    unfold INT_MAX_STR_DIGITS. lia.
  - exists "CONFIDENCE", ": ", [].
    unfold long_confidence_reply. rewrite app_nil_r.
    split; [reflexivity|]. split; [reflexivity|].
    split; [repeat constructor|].
    split; [intros H; apply (f_equal len) in H; rewrite repeat_length in H;
            discriminate H|].
    split; [|exact I].
    apply Forall_forall. intros x Hx. apply repeat_spec in Hx. subst x.
    reflexivity.
  - intros pre' s' ds' _ Hl. inversion Hl.
Qed.



(** *** Whitespace runs: [re.sub(r'\s+', ' ', s)] *)















(** *** The root cause pattern *)








(** * Further properties of the engine *)

(** ** Construction *)

Lemma lower_char_idem (c : ascii) : lower_char (lower_char c) = lower_char c.
Proof. destruct c as [[] [] [] [] [] [] [] []]; reflexivity. Qed.

Lemma lower_idem (s : text) : lower (lower s) = lower s.
Proof.
  unfold lower. rewrite map_map. apply map_ext. exact lower_char_idem.
Qed.

Lemma resolve_unchanged (p m : text) (models : list (text * Config.t)) :
  dict_lookup SUPPORTED_MODELS p = Some models ->
  _resolve_model_name p m = Ok m.
Proof.
  intros P. unfold _resolve_model_name. rewrite P.
  destruct (dict_mem models m); [reflexivity|].
  destruct (supported_provider _ _ P) as [-> | [-> | ->]];
    vm_compute in P; injection P as <-; reflexivity.
Qed.

(** [_resolve_model_name] on the catalogue as it is: no entry has an alias,
    so for a provider of the catalogue every name, known or not, comes back
    unchanged. *)
Theorem resolve_model_name_identity
    (p m : text) (models : list (text * Config.t)) :
  dict_lookup SUPPORTED_MODELS p = Some models ->
  _resolve_model_name p m = Ok m.
Proof. exact (resolve_unchanged p m models). Qed.

(** The statement at a legacy name of an Anthropic model. *)
Lemma resolve_model_name_identity_witness :
  _resolve_model_name "anthropic" "claude-2" = Ok ("claude-2" : text).
Proof.
  apply (resolve_model_name_identity "anthropic" "claude-2"
           (dict_get SUPPORTED_MODELS "anthropic" [])).
  reflexivity.
Defined.

Lemma init_default_model
    (key prov : text) (m : option text) (mt : Z)
    (models : list (text * Config.t)) :
  key <> [] ->
  truthy_opt m = false ->
  dict_lookup SUPPORTED_MODELS (lower prov) = Some models ->
  exists self d,
    __init__ (Some key) prov m mt = Ok self
    /\ dict_lookup defaults (lower prov) = Some d
    /\ model self = d
    /\ dict_lookup models d = Some (model_config self)
    /\ max_tokens self = mt /\ api_key self = key
    /\ provider self = lower prov.
Proof.
  intros K M P.
  assert (KT : truthy_opt (Some key) = true) by (apply truthy_true; exact K).
  assert (PM : dict_mem SUPPORTED_MODELS (lower prov) = true)
    by (apply dict_mem_lookup; eauto).
  assert (D : exists d cfg, dict_lookup defaults (lower prov) = Some d
                            /\ dict_lookup models d = Some cfg).
  { destruct (supported_provider _ _ P) as [E | [E | E]]; rewrite E in *;
      vm_compute in P; injection P as <-; eexists; eexists;
      split; reflexivity. }
  destruct D as (d & cfg & Dd & Dc).
  destruct (setup_defined _ key _ P) as (base & hdrs & U).
  unfold __init__, select_model, _get_default_model.
  rewrite KT, PM, M, Dd, P. cbn [negb bind]. rewrite Dc, U.
  eexists. exists d. split; [reflexivity|]. cbn. repeat split; auto.
Qed.

Lemma init_known_model
    (key prov r : text) (mt : Z) (models : list (text * Config.t)) :
  key <> [] ->
  dict_lookup SUPPORTED_MODELS (lower prov) = Some models ->
  dict_mem models r = true ->
  exists self, __init__ (Some key) prov (Some r) mt = Ok self.
Proof.
  intros K P M.
  assert (KT : truthy_opt (Some key) = true) by (apply truthy_true; exact K).
  assert (PM : dict_mem SUPPORTED_MODELS (lower prov) = true)
    by (apply dict_mem_lookup; eauto).
  pose proof (select_model_known _ _ _ P M) as S.
  apply dict_mem_lookup in M. destruct M as [cfg M].
  destruct (setup_defined _ key _ P) as (base & hdrs & U).
  unfold __init__. rewrite KT, PM, S, P. cbn [negb bind].
  rewrite M, U. eexists. reflexivity.
Qed.

(** Without a requested model ([None] or the empty string), construction
    with a credential and a provider of the catalogue succeeds, and the
    model is the provider's default, which its catalogue has. *)
Theorem default_model_construction
    (key prov : text) (m : option text) (mt : Z)
    (models : list (text * Config.t)) :
  key <> [] ->
  truthy_opt m = false ->
  dict_lookup SUPPORTED_MODELS (lower prov) = Some models ->
  exists self d,
    __init__ (Some key) prov m mt = Ok self
    /\ dict_lookup defaults (lower prov) = Some d
    /\ model self = d
    /\ dict_lookup models d = Some (model_config self)
    /\ max_tokens self = mt /\ api_key self = key
    /\ provider self = lower prov.
Proof. exact (init_default_model key prov m mt models). Qed.

(** The statement for Gemini with the empty string as model. *)
Lemma default_model_construction_witness :
  exists self,
    __init__ (Some (list_ascii_of_string "sk-test")) "Gemini"
      (Some []) 500 = Ok self
    /\ model self = "gemini-1.5-flash".
Proof.
  destruct (default_model_construction "sk-test" "Gemini" (Some []) 500
              (dict_get SUPPORTED_MODELS "gemini" []))
    as (self & d & I & D & M & _); [discriminate | reflexivity | reflexivity |].
  exists self. split; [exact I|].
  rewrite M. vm_compute in D. injection D as <-. reflexivity.
Defined.

(** Construction succeeds exactly when there is a credential, the
    lower-cased provider is in the catalogue, and the requested model, if
    one is given, is in that provider's catalogue. *)
Theorem init_succeeds_iff
    (key : option text) (prov : text) (m : option text) (mt : Z) :
  (exists self, __init__ key prov m mt = Ok self)
  <-> truthy_opt key = true
      /\ exists models,
           dict_lookup SUPPORTED_MODELS (lower prov) = Some models
           /\ forall r, m = Some r -> r <> [] -> dict_mem models r = true.
Proof.
  split.
  - intros [self H].
    destruct (init_ok _ _ _ _ _ H) as (k & models & -> & K & P & S & C & _).
    split; [apply truthy_true; exact K|].
    exists models. split; [exact P|]. intros r -> R.
    unfold select_model in S. cbn [truthy_opt] in S.
    apply truthy_true in R. rewrite R in S.
    rewrite (resolve_unchanged _ r _ P) in S. injection S as S.
    apply dict_mem_lookup. rewrite S. eauto.
  - intros (K & models & P & M).
    destruct key as [k|]; [|discriminate K]. cbn [truthy_opt] in K.
    apply truthy_true in K.
    destruct (truthy_opt m) eqn:T.
    + destruct m as [r|]; [|discriminate T]. cbn [truthy_opt] in T.
      apply truthy_true in T.
      exact (init_known_model k prov r mt models K P (M r eq_refl T)).
    + destruct (init_default_model k prov m mt models K T P)
        as (self & d & I & _). exists self. exact I.
Qed.

(** The statement at a known and at an unknown OpenAI model. *)
Lemma init_succeeds_iff_witness :
  (exists self,
     __init__ (Some (list_ascii_of_string "sk-test")) "openai"
       (Some (list_ascii_of_string "o1-mini")) 1000 = Ok self)
  /\ ~ (exists self,
          __init__ (Some (list_ascii_of_string "sk-test")) "openai"
            (Some (list_ascii_of_string "gpt-3.5")) 1000 = Ok self).
Proof.
  split.
  - apply init_succeeds_iff. split; [reflexivity|].
    eexists. split; [reflexivity|].
    intros r E _. injection E as <-. reflexivity.
  - intros H. apply init_succeeds_iff in H.
    destruct H as (_ & models & P & M).
    vm_compute in P. injection P as <-.
    specialize (M "gpt-3.5" eq_refl). discriminate M. discriminate.
Defined.

(** Construction fails in three ways only, each with the module's own
    error: the missing credential, the unknown provider, the unsupported
    model.  The lookups inside never raise. *)
Theorem init_failures
    (key : option text) (prov : text) (m : option text) (mt : Z) (e : exn) :
  __init__ key prov m mt = Raise e ->
  e = AIProviderError ("API key not found for " ++ prov)
  \/ e = AIProviderError ("Unsupported provider: " ++ prov)
  \/ exists r,
       e = AIProviderError ("Unsupported model '" ++ r ++ "' for provider '"
                            ++ lower prov ++ "'").
Proof.
  unfold __init__.
  destruct (truthy_opt key); cbn [negb];
    [|intros H; injection H as <-; auto].
  destruct (dict_mem SUPPORTED_MODELS (lower prov)) eqn:P; cbn [negb];
    [|intros H; injection H as <-; auto].
  apply dict_mem_lookup in P. destruct P as [models P]. rewrite P.
  destruct (select_model_total _ m _ P) as [r ->]. cbn [bind].
  destruct (dict_lookup models r).
  - destruct (match _setup_provider_config _ _ with
              | Some bh => bh | None => _ end); discriminate.
  - intros H. injection H as <-. right. right. exists r. reflexivity.
Qed.

(** The statement at an unknown OpenAI model. *)
Lemma init_failures_witness :
  let e := AIProviderError "Unsupported model 'gpt-5' for provider 'openai'" in
  e = AIProviderError ("API key not found for " ++ "OpenAI")
  \/ e = AIProviderError ("Unsupported provider: " ++ "OpenAI")
  \/ exists r,
       e = AIProviderError ("Unsupported model '" ++ r ++ "' for provider '"
                            ++ lower "OpenAI" ++ "'").
Proof.
  apply (init_failures (Some (list_ascii_of_string "sk-test")) "OpenAI"
           (Some (list_ascii_of_string "gpt-5")) 1000).
  reflexivity.
Defined.

(** The provider is matched without regard to letter case: construction
    with a provider string succeeds exactly when it does with the
    lower-cased string, and gives the same analyzer. *)
Theorem provider_case_insensitive
    (key : option text) (prov : text) (m : option text) (mt : Z)
    (self : AIAnalyzer) :
  __init__ key prov m mt = Ok self
  <-> __init__ key (lower prov) m mt = Ok self.
Proof.
  unfold __init__. rewrite lower_idem.
  destruct (truthy_opt key); cbn [negb]; [|split; discriminate].
  destruct (dict_mem SUPPORTED_MODELS (lower prov)); cbn [negb];
    [|split; discriminate].
  reflexivity.
Qed.

(** The statement at [OPENAI]. *)
Lemma provider_case_insensitive_witness :
  exists self,
    __init__ (Some (list_ascii_of_string "sk-test")) "OPENAI" None 1000
      = Ok self
    /\ __init__ (Some (list_ascii_of_string "sk-test")) "openai" None 1000
      = Ok self.
Proof.
  eexists. split; [reflexivity|].
  change (list_ascii_of_string "openai") with (lower "OPENAI").
  apply provider_case_insensitive. reflexivity.
Defined.

(** ** Requests of a constructed analyzer *)

(** The provider-specific attributes of a constructed analyzer. *)
Lemma analyzer_shape
    (key : option text) (prov : text) (m : option text) (mt : Z)
    (self : AIAnalyzer) :
  __init__ key prov m mt = Ok self ->
  key = Some (api_key self) /\ api_key self <> []
  /\ (provider self = "openai"
      /\ api_base self = "https://api.openai.com/v1"
      /\ headers self
         = [ ("Authorization" : text, "Bearer " ++ api_key self);
             ("Content-Type" : text, "application/json" : text) ]
      \/ provider self = "anthropic"
         /\ api_base self = "https://api.anthropic.com/v1"
         /\ headers self
            = [ ("x-api-key" : text, api_key self);
                ("Content-Type" : text, "application/json" : text);
                ("anthropic-version" : text, "2023-06-01" : text) ]
      \/ provider self = "gemini"
         /\ api_base self = "https://generativelanguage.googleapis.com/v1beta"
         /\ headers self = [ ("Content-Type" : text, "application/json" : text) ]).
Proof.
  intros H.
  destruct (init_ok _ _ _ _ _ H)
    as (k & models & -> & K & P & _ & _ & E & _ & A & S).
  rewrite A. split; [reflexivity|]. split; [exact K|].
  rewrite E. destruct (supported_provider _ _ P) as [L | [L | L]];
    rewrite L in *.
  - left.
    assert (U : _setup_provider_config "openai" k
                = Some ("https://api.openai.com/v1" : text,
                        [ ("Authorization" : text, "Bearer " ++ k);
                          ("Content-Type" : text, "application/json" : text) ]))
      by reflexivity.
    rewrite U in S. injection S as <- <-. repeat split; reflexivity.
  - right. left.
    assert (U : _setup_provider_config "anthropic" k
                = Some ("https://api.anthropic.com/v1" : text,
                        [ ("x-api-key" : text, k);
                          ("Content-Type" : text, "application/json" : text);
                          ("anthropic-version" : text, "2023-06-01" : text) ]))
      by reflexivity.
    rewrite U in S. injection S as <- <-. repeat split; reflexivity.
  - right. right.
    assert (U : _setup_provider_config "gemini" k
                = Some ("https://generativelanguage.googleapis.com/v1beta"
                          : text,
                        [ ("Content-Type" : text, "application/json" : text) ]))
      by reflexivity.
    rewrite U in S. injection S as <- <-. repeat split; reflexivity.
Qed.

(** What [build_request] gives for a constructed analyzer. *)
Lemma built_request
    (key : option text) (prov : text) (m : option text) (mt : Z)
    (self : AIAnalyzer) (prompt : text) :
  __init__ key prov m mt = Ok self ->
  provider self = "openai"
  /\ build_request self prompt = Ok (_call_openai self prompt)
  \/ provider self = "anthropic"
     /\ build_request self prompt = Ok (_call_anthropic self prompt)
  \/ provider self = "gemini"
     /\ build_request self prompt = Ok (_call_gemini self prompt).
Proof.
  intros H. destruct (analyzer_shape _ _ _ _ _ H) as (_ & _ & S).
  unfold build_request.
  destruct S as [(P & _) | [(P & _) | (P & _)]]; rewrite P;
    [left | right; left | right; right]; split; reflexivity.
Qed.

(** Every request of a constructed analyzer goes to an [https] URL, so
    [_make_request] lets it through: the request is handed to the network,
    once, whatever the network answers. *)
Theorem analyzer_request_https
    (key : option text) (prov : text) (m : option text) (mt : Z)
    (self : AIAnalyzer) (prompt : text) :
  __init__ key prov m mt = Ok self ->
  exists req,
    build_request self prompt = Ok req
    /\ startswith (req_url req) "https://" = true
    /\ forall urlopen json_loads w,
         snd (_make_request urlopen json_loads req w) = w ++ [req].
Proof.
  intros H. destruct (analyzer_shape _ _ _ _ _ H) as (_ & _ & S).
  assert (R : exists req, build_request self prompt = Ok req
                /\ startswith (req_url req) "https://" = true).
  { destruct (built_request _ _ _ _ _ prompt H)
      as [(P & B) | [(P & B) | (P & B)]]; rewrite B; eexists;
      (split; [reflexivity|]);
      destruct S as [(P' & A & _) | [(P' & A & _) | (P' & A & _)]];
      try (rewrite P in P'; discriminate P');
      cbn [_call_openai _call_anthropic _call_gemini req_url];
      rewrite A; reflexivity. }
  destruct R as (req & B & U). exists req. repeat split; auto.
  intros urlopen json_loads w. apply https_request_recorded. exact U.
Qed.

(** The statement for the default OpenAI analyzer. *)
Lemma analyzer_request_https_witness :
  exists self req,
    __init__ (Some (list_ascii_of_string "sk-test")) "openai" None 1000
      = Ok self
    /\ build_request self "why" = Ok req
    /\ req_url req = "https://api.openai.com/v1/chat/completions".
Proof.
  eexists. eexists. split; [reflexivity|].
  destruct (analyzer_request_https
              (Some (list_ascii_of_string "sk-test")) "openai" None 1000
              _ "why" eq_refl) as (req & B & _).
  split; reflexivity.
Defined.

(** Where the credential travels.  OpenAI: in the header [Authorization],
    as a bearer token.  Anthropic: in the header [x-api-key], with the
    version header.  Gemini: at the end of the URL, as the query parameter
    [key], and in no header.  Every request declares a JSON body. *)
Theorem credential_placement
    (key : option text) (prov : text) (m : option text) (mt : Z)
    (self : AIAnalyzer) (prompt : text) (req : request) :
  __init__ key prov m mt = Ok self ->
  build_request self prompt = Ok req ->
  dict_lookup (req_headers req) "Content-Type"
    = Some ("application/json" : text)
  /\ (provider self = "openai" ->
      dict_lookup (req_headers req) "Authorization"
        = Some ("Bearer " ++ api_key self)
      /\ dict_lookup (req_headers req) "x-api-key" = None)
  /\ (provider self = "anthropic" ->
      dict_lookup (req_headers req) "x-api-key" = Some (api_key self)
      /\ dict_lookup (req_headers req) "anthropic-version"
         = Some ("2023-06-01" : text)
      /\ dict_lookup (req_headers req) "Authorization" = None)
  /\ (provider self = "gemini" ->
      dict_lookup (req_headers req) "Authorization" = None
      /\ dict_lookup (req_headers req) "x-api-key" = None
      /\ exists base, req_url req = base ++ "?key=" ++ api_key self).
Proof.
  intros H B. destruct (analyzer_shape _ _ _ _ _ H) as (_ & _ & S).
  destruct (built_request _ _ _ _ _ prompt H)
    as [(P & B') | [(P & B') | (P & B')]];
    rewrite B' in B; injection B as <-;
    destruct S as [(P' & A & Hd) | [(P' & A & Hd) | (P' & A & Hd)]];
    try (rewrite P in P'; discriminate P');
    cbn [_call_openai _call_anthropic _call_gemini req_url req_headers];
    rewrite Hd, P;
    (split; [reflexivity|]);
    (split; [intros Q; try discriminate Q; repeat split; reflexivity|]);
    (split; [intros Q; try discriminate Q; repeat split; reflexivity|]);
    intros Q; try discriminate Q.
  repeat split; try reflexivity.
  exists (api_base self ++ "/models/" ++ model self ++ ":"
          ++ Config.endpoint (model_config self)).
  reflexivity.
Qed.

(** The statement for the default Gemini analyzer. *)
Lemma credential_placement_witness :
  exists req,
    (self <- __init__ (Some (list_ascii_of_string "sk-test")) "gemini"
               None 1000 ;; build_request self "why") = Ok req
    /\ dict_lookup (req_headers req) "Authorization" = None
    /\ req_url req
       = "https://generativelanguage.googleapis.com/v1beta/models/gemini-1.5-flash:generateContent?key=sk-test".
Proof.
  eexists. split; [reflexivity|].
  destruct (credential_placement
              (Some (list_ascii_of_string "sk-test")) "gemini" None 1000
              _ "why" _ eq_refl eq_refl) as (_ & _ & _ & G).
  destruct (G eq_refl) as (A & _ & _). split; [exact A | reflexivity].
Defined.

(** The payload carries the prompt as it was built, at the place the
    provider reads the user's message from, and names the model: in the
    payload for OpenAI and Anthropic, in the URL for Gemini. *)
Theorem request_carries_prompt
    (key : option text) (prov : text) (m : option text) (mt : Z)
    (self : AIAnalyzer) (prompt : text) (req : request) :
  __init__ key prov m mt = Ok self ->
  build_request self prompt = Ok req ->
  getpath (req_data req) (prompt_path (provider self)) = Ok (JStr prompt)
  /\ (provider self <> "gemini" ->
      getpath (req_data req) [by_key "model"] = Ok (JStr (model self)))
  /\ (provider self = "gemini" ->
      exists base rest,
        req_url req = base ++ "/models/" ++ model self ++ ":" ++ rest).
Proof.
  intros H B.
  destruct (built_request _ _ _ _ _ prompt H)
    as [(P & B') | [(P & B') | (P & B')]];
    rewrite B' in B; injection B as <-; rewrite P;
    (split; [reflexivity|]);
    (split; [intros Q; try (elim Q; reflexivity); reflexivity|]);
    intros Q; try discriminate Q.
  cbn [_call_gemini req_url].
  exists (api_base self),
         (Config.endpoint (model_config self) ++ "?key=" ++ api_key self).
  repeat rewrite <- app_assoc. reflexivity.
Qed.

(** The statement for the default Anthropic analyzer. *)
Lemma request_carries_prompt_witness :
  exists req,
    (self <- __init__ (Some (list_ascii_of_string "sk-test")) "anthropic"
               None 1000 ;; build_request self "why") = Ok req
    /\ getpath (req_data req)
         [by_key "messages"; by_index 0; by_key "content"]
       = Ok (JStr "why").
Proof.
  eexists. split; [reflexivity|].
  destruct (request_carries_prompt
              (Some (list_ascii_of_string "sk-test")) "anthropic" None 1000
              _ "why" _ eq_refl eq_refl) as (G & _).
  exact G.
Defined.

(** ** The log in the prompt *)

Lemma prompt_rest_layout (log : text) :
  join [nl] (skipn 8 (prompt_lines [] [] [] [] [] log))
  = PROMPT_MID ++ log ++ PROMPT_TAIL.
Proof.
  transitivity ((PROMPT_MID ++ log ++ "  # Increased log size") ++ [nl]
                ++ join [nl] (skipn 12 (prompt_lines [] [] [] [] [] [])));
    [vm_compute; reflexivity|].
  unfold PROMPT_TAIL. repeat rewrite <- app_assoc. reflexivity.
Qed.

Lemma prompt_full_layout (ctx : context) :
  _build_prompt ctx
  = PROMPT_HEAD
    ++ "- Pipeline: " ++ shown ctx "pipeline" "unknown" ++ [nl]
    ++ "- Branch: " ++ shown ctx "branch" "unknown" ++ [nl]
    ++ "- Command: " ++ shown ctx "command" "unknown" ++ [nl]
    ++ "- Exit Status: " ++ shown ctx "exit_status" "unknown" ++ [nl]
    ++ "- Phase: " ++ shown ctx "phase" "command" ++ [nl]
    ++ PROMPT_MID ++ firstn 5000 (log_of ctx) ++ PROMPT_TAIL.
Proof.
  unfold _build_prompt. cbv zeta. rewrite prompt_layout, prompt_rest_layout.
  unfold shown, dict_get, log_of. destruct (build_info ctx); reflexivity.
Qed.

(** The prompt is bounded whatever the size of the log: it has the 1676
    characters of the template, the five rendered fields, and the first
    5000 characters of the log excerpt (all of it when it is shorter), set
    between the fence lines of the template. *)
Theorem prompt_log_truncated (ctx : context) :
  (exists pre,
     _build_prompt ctx
     = pre ++ "```" ++ [nl] ++ firstn 5000 (log_of ctx) ++ PROMPT_TAIL)
  /\ len (_build_prompt ctx)
     = 1676 + len (shown ctx "pipeline" "unknown")
       + len (shown ctx "branch" "unknown")
       + len (shown ctx "command" "unknown")
       + len (shown ctx "exit_status" "unknown")
       + len (shown ctx "phase" "command")
       + Nat.min 5000 (len (log_of ctx))
  /\ (len (log_of ctx) <= 5000 -> firstn 5000 (log_of ctx) = log_of ctx).
Proof.
  split; [|split].
  - rewrite prompt_full_layout. unfold PROMPT_MID.
    exists (PROMPT_HEAD
            ++ "- Pipeline: " ++ shown ctx "pipeline" "unknown" ++ [nl]
            ++ "- Branch: " ++ shown ctx "branch" "unknown" ++ [nl]
            ++ "- Command: " ++ shown ctx "command" "unknown" ++ [nl]
            ++ "- Exit Status: " ++ shown ctx "exit_status" "unknown" ++ [nl]
            ++ "- Phase: " ++ shown ctx "phase" "command" ++ [nl]
            ++ [nl] ++ "ERROR LOG (last 100 lines):" ++ [nl]).
    repeat rewrite <- app_assoc. reflexivity.
  - rewrite prompt_full_layout. repeat rewrite length_app.
    rewrite length_firstn.
    assert (E1 : len PROMPT_HEAD = 151) by reflexivity.
    assert (E2 : len PROMPT_MID = 33) by reflexivity.
    assert (E3 : len PROMPT_TAIL = 1430) by reflexivity.
    rewrite E1, E2, E3. cbn [Datatypes.length list_ascii_of_string].
    lia.
  - intros L. apply firstn_all2. exact L.
Qed.

(** The statement at a log of four characters, shown whole. *)
Lemma prompt_log_truncated_witness :
  firstn 5000 (log_of (Context None (Some (list_ascii_of_string "boom"))))
  = "boom".
Proof.
  destruct (prompt_log_truncated
              (Context None (Some (list_ascii_of_string "boom"))))
    as (_ & _ & H).
  apply H. simpl. lia.
Defined.

(** ** Outcomes of [_make_request] *)

(** For an [https] URL the outcome follows the network's answer.  A value
    is returned exactly when the body arrives and decodes as JSON.  The
    three handled failures are raised as the module's own error: an HTTP
    error with its status and at most the first 200 characters of its body,
    a URL error and a body that is not JSON with their messages.  An
    exception of any other class, from the network or from the decoder, is
    not handled: it leaves the method as it is, and nothing else does. *)
Theorem make_request_outcomes
    (urlopen : request -> net_outcome) (json_loads : text -> loads_outcome)
    (req : request) (w : wire) :
  startswith (req_url req) "https://" = true ->
  (forall v,
      fst (_make_request urlopen json_loads req w) = Ok v
      <-> exists body, urlopen req = Body body /\ json_loads body = Loaded v)
  /\ (forall code body,
        urlopen req = HTTPError code body ->
        exists excerpt rest,
          fst (_make_request urlopen json_loads req w)
          = Raise (AIProviderError
                     ("HTTP " ++ str_of_int code ++ ": " ++ excerpt ++ "..."))
          /\ len excerpt <= 200 /\ body = excerpt ++ rest)
  /\ (forall msg,
        urlopen req = URLError msg ->
        fst (_make_request urlopen json_loads req w)
        = Raise (AIProviderError ("Network error: " ++ msg)))
  /\ (forall body msg,
        urlopen req = Body body -> json_loads body = JSONDecodeError msg ->
        fst (_make_request urlopen json_loads req w)
        = Raise (AIProviderError ("Invalid JSON response: " ++ msg)))
  /\ (forall msg,
        fst (_make_request urlopen json_loads req w)
        = Raise (OtherException msg)
        <-> urlopen req = NetException msg
            \/ exists body, urlopen req = Body body
                            /\ json_loads body = LoadsException msg)
  /\ (forall e,
        fst (_make_request urlopen json_loads req w) = Raise e ->
        (exists msg, e = AIProviderError msg)
        \/ (exists msg, e = OtherException msg)).
Proof.
  intros H. unfold _make_request. rewrite H. cbn [negb].
  split; [|split; [|split; [|split; [|split]]]].
  - intros v. split.
    + destruct (urlopen req) as [body | code body | msg | msg];
        try discriminate.
      destruct (json_loads body) as [v' | msg | msg] eqn:J; try discriminate.
      cbn [fst]. intros E. injection E as <-. exists body. auto.
    + intros (body & -> & ->). reflexivity.
  - intros code body ->. exists (firstn 200 body), (skipn 200 body).
    cbn [fst]. split; [reflexivity|].
    split; [apply firstn_le_length | symmetry; apply firstn_skipn].
  - intros msg ->. reflexivity.
  - intros body msg -> ->. reflexivity.
  - intros msg. split.
    + destruct (urlopen req) as [body | code body | m | m];
        [destruct (json_loads body) as [v | m | m] eqn:J| | |]; cbn [fst];
        intros E; try discriminate E; injection E as ->.
      * right. exists body. auto.
      * left. reflexivity.
    + intros [-> | (body & -> & ->)]; reflexivity.
  - intros e. destruct (urlopen req) as [body | code body | msg | msg];
      [destruct (json_loads body)| | |]; cbn [fst]; intros E;
      try discriminate E; injection E as <-;
      ((left; eexists; reflexivity) || (right; eexists; reflexivity)).
Qed.

(** The statement at a server that answers 401 with a short body. *)
Lemma make_request_outcomes_witness :
  fst (_make_request (fun _ => HTTPError 401 "denied") (fun _ => JSONDecodeError [])
         (Request "https://api.openai.com/v1/chat/completions" JNull []) [])
  = Raise (AIProviderError "HTTP 401: denied...").
Proof.
  destruct (make_request_outcomes
              (fun _ => HTTPError 401 "denied") (fun _ => JSONDecodeError [])
              (Request "https://api.openai.com/v1/chat/completions" JNull [])
              [] eq_refl) as (_ & H & _).
  destruct (H 401%Z "denied" eq_refl) as (excerpt & rest & E & _ & _).
  reflexivity.
Defined.

(** ** The severity of the result *)

Lemma option_map_orelse {A B} (f : A -> B) (a b : option A) :
  option_map f (orelse a b) = orelse (option_map f a) (option_map f b).
Proof. destruct a; reflexivity. Qed.

Lemma firstn_app_exact {A} (a b : list A) :
  firstn (len (a ++ b) - len b) (a ++ b) = a.
Proof.
  rewrite length_app, Nat.add_sub, firstn_app, Nat.sub_diag, firstn_all.
  simpl. apply app_nil_r.
Qed.

(** A literal inside the group: the group is the text the literal read. *)
Lemma bt_lit_group (l : text) (p : option ascii) (s : text) (g : option text) :
  option_map group1
    (bt I_ (lit l)
       (fun st' =>
          Some (MState (m_prev st') (m_rest st')
                  (Some (firstn (len s - len (m_rest st')) s))))
       (MState p s g))
  = take_word l s.
Proof.
  rewrite bt_lit. unfold take_word.
  pose proof (lit_prefix_prev I_ l p None s) as Q.
  destruct (lit_prefix I_ l p s) as [[p1 s1]|];
    destruct (lit_prefix I_ l None s) as [[p2 s2]|];
    try discriminate Q; [|reflexivity].
  injection Q as ->. reflexivity.
Qed.

Lemma word_group_here (p : option ascii) (s : text) (g : option text) :
  option_map group1
    (bt I_ (r_grp (lit "low" <|> lit "medium" <|> lit "high")%re) Some
       (MState p s g))
  = word_here s.
Proof.
  change (bt I_ (r_grp (lit "low" <|> lit "medium" <|> lit "high")%re) Some
            (MState p s g))
    with (let k := fun st' =>
                     Some (MState (m_prev st') (m_rest st')
                             (Some (firstn (len s - len (m_rest st')) s))) in
          orelse (bt I_ (lit "low") k (MState p s g))
            (orelse (bt I_ (lit "medium") k (MState p s g))
                    (bt I_ (lit "high") k (MState p s g)))).
  cbv zeta. rewrite !option_map_orelse, !bt_lit_group. reflexivity.
Qed.

Lemma take_word_inv (w s g : text) :
  take_word w s = Some g -> exists rest, s = g ++ rest /\ lower g = lower w.
Proof.
  unfold take_word.
  destruct (lit_prefix I_ w None s) as [[p' s']|] eqn:L; [|discriminate].
  destruct (lit_prefix_inv I_ _ _ _ _ _ eq_refl L) as (lab & -> & E).
  rewrite firstn_app_exact. intros H. injection H as <-.
  exists s'. split; [reflexivity | exact E].
Qed.

Lemma take_word_intro (w g rest : text) :
  lower g = lower w -> take_word w (g ++ rest) = Some g.
Proof.
  intros E. unfold take_word.
  destruct (lit_prefix_intro I_ w g None rest eq_refl E) as [p' ->].
  rewrite firstn_app_exact. reflexivity.
Qed.

Lemma take_word_head (w s : text) (c x : ascii) (w' : text) :
  w = c :: w' -> lower_char x <> lower_char c -> take_word w (x :: s) = None.
Proof.
  intros -> N. unfold take_word. cbn [lit_prefix cls_match IGNORECASE I_].
  destruct (ascii_dec (lower_char x) (lower_char c)); [contradiction|].
  reflexivity.
Qed.

Lemma is_sep_not_word (c : ascii) :
  is_sep c = true ->
  lower_char c <> "l"%char /\ lower_char c <> "m"%char
  /\ lower_char c <> "h"%char.
Proof.
  destruct c as [[] [] [] [] [] [] [] []]; vm_compute; intros H;
    try discriminate H; repeat split; discriminate.
Qed.

Lemma word_here_valid (s g : text) :
  word_here s = Some g ->
  exists rest, s = g ++ rest /\ is_severity (lower g).
Proof.
  unfold word_here, is_severity.
  destruct (take_word "low" s) as [g1|] eqn:E1; cbn [orelse].
  - intros H. injection H as <-.
    destruct (take_word_inv _ _ _ E1) as (rest & -> & L). eauto.
  - destruct (take_word "medium" s) as [g2|] eqn:E2; cbn [orelse].
    + intros H. injection H as <-.
      destruct (take_word_inv _ _ _ E2) as (rest & -> & L). eauto.
    + intros E3. destruct (take_word_inv _ _ _ E3) as (rest & -> & L). eauto.
Qed.

Lemma word_here_sep (c : ascii) (s : text) :
  is_sep c = true -> word_here (c :: s) = None.
Proof.
  intros H. destruct (is_sep_not_word c H) as (Nl & Nm & Nh).
  unfold word_here.
  rewrite (take_word_head "low" s "l" c "ow" eq_refl Nl).
  rewrite (take_word_head "medium" s "m" c "edium" eq_refl Nm).
  rewrite (take_word_head "high" s "h" c "igh" eq_refl Nh).
  reflexivity.
Qed.

Lemma match_here_severity (p : option ascii) (s : text) :
  option_map group1 (match_here I_ RE_SEVERITY p s) = severity_here s.
Proof.
  unfold match_here, RE_SEVERITY, severity_here. cbn [bt].
  rewrite bt_lit.
  pose proof (lit_prefix_prev I_ "SEVERITY" p None s) as Q.
  destruct (lit_prefix I_ "SEVERITY" p s) as [[p1 s1]|];
    destruct (lit_prefix I_ "SEVERITY" None s) as [[p2 s2]|];
    try discriminate Q; [|reflexivity].
  injection Q as ->.
  change (rep (cls_match I_ colon_or_space) q_star true ?k
            (MState p1 s2 None))
    with (rep_star is_sep true k None p1 s2).
  rewrite rep_star_greedy_skip.
  - exact (word_group_here _ _ _).
  - intros q c t Hc. apply (option_map_none group1).
    etransitivity; [exact (word_group_here q (c :: t) None)|].
    apply word_here_sep. exact Hc.
Qed.

Lemma search_severity (content : text) :
  re_search I_ RE_SEVERITY content = first_suffix severity_here content.
Proof.
  unfold re_search. apply search_from_first_suffix.
  exact match_here_severity.
Qed.

Lemma extract_severity (content : text) (tokens : json) (a : analysis) :
  _extract_analysis_fields content tokens = Ok a ->
  severity a = scan_severity content.
Proof.
  unfold _extract_analysis_fields. cbv zeta.
  destruct (scan_confidence content) as [c|e]; cbn [bind];
    [|intros H; discriminate H].
  cbn [root_cause suggested_fixes severity].
  destruct (negb (truthy (scan_root_cause content))
            && negb (truthy (scan_fixes content)));
    intros H; injection H as <-; reflexivity.
Qed.

Lemma severity_here_valid (s g : text) :
  severity_here s = Some g -> is_severity (lower g).
Proof.
  unfold severity_here.
  destruct (lit_prefix I_ "SEVERITY" None s) as [[p1 s1]|]; [|discriminate].
  intros H. destruct (word_here_valid _ _ H) as (rest & _ & V). exact V.
Qed.

Lemma scan_severity_valid (content : text) :
  is_severity (scan_severity content).
Proof.
  unfold scan_severity. rewrite search_severity.
  destruct (first_suffix severity_here content) as [g|] eqn:F.
  - apply first_suffix_some in F. destruct F as (pre & t & _ & H & _).
    exact (severity_here_valid _ _ H).
  - right. left. reflexivity.
Qed.

(** For a reply within the alphabet of this development, the code points
    U+0000..U+00FF, the severity of a returned analysis is [low], [medium]
    or [high], in lower case.  The statement does not reach beyond that
    alphabet: there [re.IGNORECASE] also reads U+0130 and U+0131 as the
    letter [i], and [str.lower] does not bring such a word to one of the
    three. *)
Theorem severity_always_valid
    (content : text) (tokens : json) (a : analysis) :
  _extract_analysis_fields content tokens = Ok a ->
  is_severity (severity a).
Proof.
  intros A. rewrite (extract_severity _ _ _ A). apply scan_severity_valid.
Qed.

(** The statement at a reply with the label in capitals. *)
Lemma severity_always_valid_witness :
  _extract_analysis_fields "SEVERITY: HIGH" JNull
  = Ok (Analysis "SEVERITY: HIGH" FALLBACK_FIXES 50 "high" JNull)
  /\ is_severity ("high" : text).
Proof.
  assert (A : _extract_analysis_fields "SEVERITY: HIGH" JNull
              = Ok (Analysis "SEVERITY: HIGH" FALLBACK_FIXES 50 "high"
                      JNull))
    by (vm_compute; reflexivity).
  split; [exact A|].
  exact (severity_always_valid "SEVERITY: HIGH" JNull _ A).
Defined.

Lemma word_here_intro (w rest : text) :
  is_severity (lower w) ->
  word_here (w ++ rest) = Some w
  /\ exists x w', w = x :: w' /\ is_sep x = false.
Proof.
  intros V.
  assert (S : forall x, (lower_char x = "l" \/ lower_char x = "m"
                         \/ lower_char x = "h")%char -> is_sep x = false).
  { intros x Hx. destruct (is_sep x) eqn:E; [|reflexivity].
    destruct (is_sep_not_word x E) as (Nl & Nm & Nh).
    destruct Hx as [H | [H | H]]; contradiction. }
  unfold word_here.
  destruct V as [V | [V | V]];
    destruct w as [|x w']; try discriminate V;
    pose proof V as V'; cbn [lower map] in V'; injection V' as Hx _.
  - rewrite (take_word_intro "low" (x :: w') rest V). cbn [orelse].
    split; [reflexivity|]. exists x, w'. split; [reflexivity|].
    apply S. auto.
  - cbn [app].
    rewrite (take_word_head "low" (w' ++ rest) "l" x "ow" eq_refl)
      by (rewrite Hx; discriminate).
    change (x :: w' ++ rest) with ((x :: w') ++ rest).
    rewrite (take_word_intro "medium" (x :: w') rest V). cbn [orelse].
    split; [reflexivity|]. exists x, w'. split; [reflexivity|].
    apply S. auto.
  - cbn [app].
    rewrite (take_word_head "low" (w' ++ rest) "l" x "ow" eq_refl)
      by (rewrite Hx; discriminate).
    rewrite (take_word_head "medium" (w' ++ rest) "m" x "edium" eq_refl)
      by (rewrite Hx; discriminate).
    change (x :: w' ++ rest) with ((x :: w') ++ rest).
    rewrite (take_word_intro "high" (x :: w') rest V). cbn [orelse].
    split; [reflexivity|]. exists x, w'. split; [reflexivity|].
    apply S. auto.
Qed.

Lemma severity_here_spec (s w : text) :
  severity_here s = Some w <-> severity_label_at s w.
Proof.
  unfold severity_here, severity_label_at. split.
  - destruct (lit_prefix I_ "SEVERITY" None s) as [[p1 s1]|] eqn:L;
      [|intros H; discriminate H].
    destruct (lit_prefix_inv I_ _ _ _ _ _ eq_refl L) as (lab & -> & Hl).
    intros H. destruct (word_here_valid _ _ H) as (rest & D & V).
    exists lab, (takewhile is_sep s1), rest. repeat split.
    + rewrite <- D, takewhile_dropwhile. reflexivity.
    + exact Hl.
    + apply takewhile_all.
    + exact V.
  - intros (lab & sep & rest & -> & Hl & Hs & V).
    destruct (lit_prefix_intro I_ "SEVERITY" lab None (sep ++ w ++ rest)
                eq_refl Hl) as [p' ->].
    rewrite dropwhile_app_all by exact Hs.
    destruct (word_here_intro w rest V) as (W & x & w' & -> & Sx).
    cbn [app dropwhile]. rewrite Sx. exact W.
Qed.

(** For a reply within the alphabet of this development, the code points
    U+0000..U+00FF: the severity of a returned analysis is read at the first
    place of the text, from the left, that shows the label [SEVERITY] (any
    letter case), colons and whitespace, and one of the words low, medium,
    high (any letter case): it is that word in lower case.  When the text
    has no such place the severity is [medium].  Beyond that alphabet
    [re.IGNORECASE] finds more places (U+0130 and U+0131 read as [i],
    U+017F as [s]), which this statement does not cover. *)
Theorem severity_first_label
    (content : text) (tokens : json) (a : analysis) :
  _extract_analysis_fields content tokens = Ok a ->
  let sv := severity a in
  (forall pre s w,
      content = pre ++ s ->
      severity_label_at s w ->
      (forall pre' s' w',
          content = pre' ++ s' -> len pre' < len pre ->
          ~ severity_label_at s' w') ->
      sv = lower w)
  /\ ((forall pre s w, content = pre ++ s -> ~ severity_label_at s w) ->
      sv = "medium").
Proof.
  intros A. cbv zeta. rewrite (extract_severity _ _ _ A).
  unfold scan_severity.
  rewrite search_severity. split.
  - intros pre s w E L Min.
    assert (F : first_suffix severity_here content = Some w).
    { apply first_suffix_some. exists pre, s. repeat split; auto.
      - apply severity_here_spec. exact L.
      - intros pre' s' E' Hl.
        destruct (severity_here s') as [w'|] eqn:C; [|reflexivity].
        apply severity_here_spec in C. elim (Min pre' s' w' E' Hl C). }
    rewrite F. reflexivity.
  - intros N.
    assert (F : first_suffix severity_here content = None).
    { apply first_suffix_none. intros pre s E.
      destruct (severity_here s) as [w|] eqn:C; [|reflexivity].
      apply severity_here_spec in C. elim (N pre s w E C). }
    rewrite F. reflexivity.
Qed.

(** The statement at [Severity:  HIGH]. *)
Lemma severity_first_label_witness :
  exists a,
    _extract_analysis_fields "Severity:  HIGH" JNull = Ok a
    /\ severity a = "high".
Proof.
  assert (A : _extract_analysis_fields "Severity:  HIGH" JNull
              = Ok (Analysis "Severity:  HIGH" FALLBACK_FIXES 50 "high"
                      JNull))
    by (vm_compute; reflexivity).
  eexists. split; [exact A|].
  destruct (severity_first_label "Severity:  HIGH" JNull _ A) as [H _].
  apply (H [] "Severity:  HIGH" "HIGH").
  - reflexivity.
  - exists "Severity", ":  ", "".
    split; [reflexivity|]. split; [reflexivity|].
    split; [repeat constructor|]. right. right. reflexivity.
  - simpl. intros pre' s' w' _ Hl. inversion Hl.
Defined.

(** ** The suggested fixes of the result *)

Lemma lstrip_fixed (s : text) :
  (forall c t, s = c :: t -> isspace c = false) -> lstrip s = s.
Proof.
  destruct s as [|c t]; [reflexivity|]. intros H.
  unfold lstrip. cbn [dropwhile]. rewrite (H c t eq_refl). reflexivity.
Qed.

Lemma rstrip_fixed (s : text) :
  (forall t c, s = t ++ [c] -> isspace c = false) -> rstrip s = s.
Proof.
  intros H. unfold rstrip.
  destruct s as [|x s'] eqn:E; [reflexivity|]. rewrite <- E in *.
  assert (N : s <> []) by (rewrite E; discriminate).
  destruct (exists_last N) as (t & c & ->).
  rewrite rev_app_distr. cbn [rev app dropwhile].
  rewrite (H t c eq_refl). cbn [rev]. rewrite rev_involutive. reflexivity.
Qed.

Lemma strip_idem (s : text) : strip (strip s) = strip s.
Proof.
  unfold strip at 1.
  rewrite (lstrip_fixed (strip s)) by (intros c t; apply strip_head).
  apply rstrip_fixed. intros t c. apply strip_last.
Qed.

Lemma strip_incl (s : text) (c : ascii) : In c (strip s) -> In c s.
Proof.
  destruct (strip_split s) as (w1 & w2 & _ & _ & E). intros H.
  rewrite E. apply in_or_app. right. apply in_or_app. left. exact H.
Qed.

(** Whatever the continuation returns has the property the continuation
    guarantees. *)
Lemma rep_star_post (Q : mstate -> Prop) (m : ascii -> bool) (greedy : bool)
    (k : mstate -> option mstate) (g : option text) :
  (forall st x, k st = Some x -> Q x) ->
  forall p s x, rep_star m greedy k g p s = Some x -> Q x.
Proof.
  intros K p s. revert p. induction s as [|c s IH]; intros p x; simpl.
  - apply K.
  - destruct (m c); [|apply K].
    destruct greedy.
    + destruct (rep_star m true k g (Some c) s) eqn:E; simpl.
      * intros H. injection H as <-. exact (IH _ _ E).
      * apply K.
    + destruct (k (MState p (c :: s) g)) eqn:E; simpl.
      * intros H. injection H as <-. exact (K _ _ E).
      * apply IH.
Qed.

Lemma rep_post (Q : mstate -> Prop) (m : ascii -> bool) (q : quant)
    (greedy : bool) (k : mstate -> option mstate) :
  (forall st x, k st = Some x -> Q x) ->
  forall st x, rep m q greedy k st = Some x -> Q x.
Proof.
  intros K st x. unfold rep. destruct q.
  - apply rep_star_post. exact K.
  - destruct (m_rest st) as [|c s]; [discriminate|].
    destruct (m c); [|discriminate]. apply rep_star_post. exact K.
  - destruct (m_rest st) as [|c s]; [apply K|].
    destruct (m c); [|apply K].
    destruct greedy.
    + destruct (k (MState (Some c) s (m_grp st))) eqn:E; simpl.
      * intros H. injection H as <-. exact (K _ _ E).
      * apply K.
    + destruct (k st) eqn:E; simpl.
      * intros H. injection H as <-. exact (K _ _ E).
      * apply K.
Qed.

Lemma bt_post (fl : flags) (Q : mstate -> Prop) (r : re) :
  forall k, (forall st x, k st = Some x -> Q x) ->
  forall st x, bt fl r k st = Some x -> Q x.
Proof.
  induction r as [|c|a IHa b IHb|a IHa b IHb|c q greedy|a IHa|a IHa| |];
    intros k K st x; cbn [bt].
  - apply K.
  - destruct (m_rest st) as [|y s]; [discriminate|].
    destruct (cls_match fl c y); [apply K | discriminate].
  - apply IHa. intros st' x'. apply IHb. exact K.
  - destruct (bt fl a k st) eqn:E; simpl.
    + intros H. injection H as <-. exact (IHa _ K _ _ E).
    + apply IHb. exact K.
  - apply rep_post. exact K.
  - apply IHa. intros st' x'. apply K.
  - destruct (bt fl a Some st); [apply K | discriminate].
  - destruct (at_bol fl st); [apply K | discriminate].
  - destruct (at_eol fl st); [apply K | discriminate].
Qed.

(** A repetition reads characters of its class only. *)
Lemma rep_star_run (m : ascii -> bool) (greedy : bool)
    (k : mstate -> option mstate) (g : option text) :
  forall p s x,
    rep_star m greedy k g p s = Some x ->
    exists a b p',
      s = a ++ b /\ Forall (fun c => m c = true) a
      /\ k (MState p' b g) = Some x.
Proof.
  intros p s. revert p. induction s as [|c s IH]; intros p x; simpl.
  - intros H. exists [], [], p. repeat split; auto.
  - assert (Stop : k (MState p (c :: s) g) = Some x ->
                   exists a b p',
                     c :: s = a ++ b /\ Forall (fun c => m c = true) a
                     /\ k (MState p' b g) = Some x).
    { intros H. exists [], (c :: s), p. repeat split; auto. }
    assert (More : m c = true ->
                   rep_star m greedy k g (Some c) s = Some x ->
                   exists a b p',
                     c :: s = a ++ b /\ Forall (fun c => m c = true) a
                     /\ k (MState p' b g) = Some x).
    { intros Hc H. destruct (IH _ _ H) as (a & b & p' & -> & Fa & Kx).
      exists (c :: a), b, p'. repeat split; auto. }
    destruct (m c) eqn:Hc; [|exact Stop].
    destruct greedy.
    + destruct (rep_star m true k g (Some c) s) eqn:E; simpl.
      * intros H. injection H as <-. apply More; auto.
      * exact Stop.
    + destruct (k (MState p (c :: s) g)) eqn:E; simpl.
      * intros H. injection H as <-. apply Stop. reflexivity.
      * apply More. reflexivity.
Qed.

(** The group of a match of the bullet pattern has no newline. *)
Lemma bullet_group_line (p : option ascii) (s : text) (x : mstate) :
  match_here M_ RE_BULLET p s = Some x ->
  Forall (fun c => c <> nl) (group1 x).
Proof.
  unfold match_here, RE_BULLET.
  set (Q := fun y : mstate => Forall (fun c => c <> nl) (group1 y)).
  change (Forall (fun c => c <> nl) (group1 x)) with (Q x).
  generalize (MState p s None) as st, x. intros st0 x0.
  change (bt M_ ((r_bol <|> r_cls (c_chr nl)) >> ?a >> ?b >> ?c >> ?g)%re
            Some st0)
    with (bt M_ (r_bol <|> r_cls (c_chr nl))%re
            (bt M_ a (bt M_ b (bt M_ c (bt M_ g Some)))) st0).
  apply bt_post. intros st1 x1. apply bt_post. intros st2 x2.
  apply bt_post. intros st3 x3. apply bt_post. intros st4 x4.
  unfold Q. cbn [bt]. unfold rep. cbn [m_rest m_grp m_prev].
  destruct (m_rest st4) as [|c t] eqn:R; [discriminate|].
  destruct (cls_match M_ c_any c) eqn:Hc; [|discriminate].
  intros H. apply rep_star_run in H.
  destruct H as (a & b & p' & -> & Fa & Kx).
  cbn [m_rest m_prev] in Kx. injection Kx as <-.
  unfold group1. cbn [m_grp].
  change (firstn _ (c :: a ++ b))
    with (firstn (len ((c :: a) ++ b) - len b) ((c :: a) ++ b)).
  rewrite firstn_app_exact.
  assert (L : forall y, cls_match M_ c_any y = true -> y <> nl).
  { intros y Hy ->. discriminate Hy. }
  constructor; [apply L; exact Hc|].
  apply Forall_impl with (2 := Fa). exact L.
Qed.

Lemma findall_bullets_lines (fuel : nat) (p : option ascii) (s : text) :
  Forall (Forall (fun c => c <> nl)) (findall_from M_ fuel RE_BULLET p s).
Proof.
  revert p s. induction fuel as [|fuel IH]; intros p s; cbn [findall_from];
    [constructor|].
  destruct (match_here M_ RE_BULLET p s) as [x|] eqn:E.
  - constructor; [exact (bullet_group_line _ _ _ E)|].
    destruct (len (m_rest x) <? len s); [apply IH|].
    destruct s; [constructor | apply IH].
  - destruct s; [constructor | apply IH].
Qed.

Lemma fixes_of_items (fixes_text f : text) :
  In f (fixes_of fixes_text) ->
  f <> [] /\ strip f = f /\ ~ In nl f.
Proof.
  unfold fixes_of. intros H. apply filter_In in H. destruct H as [H T].
  apply in_map_iff in H. destruct H as (g & <- & G).
  split; [apply truthy_true; exact T|]. split; [apply strip_idem|].
  intros N. apply strip_incl in N.
  pose proof (findall_bullets_lines (S (len fixes_text)) None fixes_text) as L.
  rewrite Forall_forall in L. specialize (L g G).
  rewrite Forall_forall in L. exact (L nl N eq_refl).
Qed.

(** Whatever the reply, every suggested fix of a returned analysis is a
    line of text that is not empty, has no whitespace at either end and no
    newline inside. *)
Theorem suggested_fixes_are_trimmed_lines
    (content : text) (tokens : json) (a : analysis) (f : text) :
  _extract_analysis_fields content tokens = Ok a ->
  In f (suggested_fixes a) ->
  f <> [] /\ strip f = f /\ ~ In nl f.
Proof.
  intros A. destruct (extract_ok_inv _ _ _ A) as (c & _ & [(_ & _ & ->) | (_ & ->)]);
    cbn [suggested_fixes].
  - intros [<- | [<- | [<- | [<- | []]]]];
      (split; [discriminate|]); (split; [reflexivity|]);
      vm_compute; intuition discriminate.
  - unfold scan_fixes.
    destruct (re_search I_S RE_FIXES content) as [g|]; [|intros []].
    apply fixes_of_items.
Qed.

(** The statement at a reply with one numbered fix. *)
Lemma suggested_fixes_are_trimmed_lines_witness :
  _extract_analysis_fields
    ("SUGGESTED FIXES:" ++ [nl] ++ "1.   Rotate the key  ") JNull
  = Ok (Analysis [] [ "Rotate the key" : text ] 50 "medium" JNull)
  /\ strip "Rotate the key" = ("Rotate the key" : text).
Proof.
  assert (A : _extract_analysis_fields
                ("SUGGESTED FIXES:" ++ [nl] ++ "1.   Rotate the key  ") JNull
              = Ok (Analysis [] [ "Rotate the key" : text ] 50 "medium"
                      JNull))
    by (vm_compute; reflexivity).
  split; [exact A|].
  apply (suggested_fixes_are_trimmed_lines _ _ _ "Rotate the key" A).
  left. reflexivity.
Defined.

(** ** Envelopes that parse *)

(** The steps of the [try] of [_parse_response], for any reply path that
    starts with a key. *)
Lemma parse_steps
    (k0 : text) (path : list subscript) (ukey tkey : text)
    (response : json) (a : analysis) :
  match
    (content <- getpath response (by_key k0 :: path) ;;
     usage <- get response ukey (JDict []) ;;
     tokens_used <- get usage tkey (JInt 0) ;;
     extract_content content tokens_used)
  with
  | Raise (KeyError msg) | Raise (IndexError msg) =>
      Raise (AIProviderError ("Invalid response format: " ++ msg))
  | r => r
  end = Ok a
  <-> exists d t ud,
        response = JDict d
        /\ getpath response (by_key k0 :: path) = Ok (JStr t)
        /\ dict_get d ukey (JDict []) = JDict ud
        /\ _extract_analysis_fields t (dict_get ud tkey (JInt 0)) = Ok a.
Proof.
  split.
  - destruct response as [| | | | |l|d];
      try (cbn; intros H; discriminate H).
    destruct (getpath (JDict d) (by_key k0 :: path)) as [content|e] eqn:G;
      cbn [bind get].
    + destruct (dict_get d ukey (JDict [])) as [| | | | |l|ud] eqn:U;
        cbn [bind get]; try (intros H; discriminate H).
      destruct content as [| | | |t| |]; cbn [extract_content];
        try (intros H; discriminate H).
      destruct (_extract_analysis_fields t (dict_get ud tkey (JInt 0)))
        as [a'|e] eqn:X; [|destruct e; intros H; discriminate H].
      intros H. injection H as <-. exists d, t, ud. auto.
    + destruct e; intros H; discriminate H.
  - intros (d & t & ud & -> & G & U & X).
    rewrite G. cbn [bind get]. rewrite U. cbn [bind get extract_content].
    rewrite X. reflexivity.
Qed.

Lemma parse_response_ok_iff
    (self : AIAnalyzer) (response : json) (a : analysis) :
  is_provider (provider self) ->
  (_parse_response self response = Ok a
   <-> exists d t ud,
         response = JDict d
         /\ getpath response (reply_path (provider self)) = Ok (JStr t)
         /\ dict_get d (fst (usage_keys (provider self))) (JDict [])
            = JDict ud
         /\ _extract_analysis_fields t
              (dict_get ud (snd (usage_keys (provider self))) (JInt 0))
            = Ok a).
Proof.
  intros P. unfold _parse_response, parse_body, reply_path, usage_keys.
  destruct P as [-> | [-> | ->]]; cbn [text_eqb fst snd];
    repeat case_text_eqb; try congruence; try discriminate;
    apply parse_steps.
Qed.

Lemma parse_response_steps_ok
    (self : AIAnalyzer) (response : json) (a : analysis) :
  is_provider (provider self) ->
  _parse_response self response = Ok a ->
  exists t tok,
    getpath response (reply_path (provider self)) = Ok (JStr t)
    /\ _extract_analysis_fields t tok = Ok a.
Proof.
  intros P H. apply (parse_response_ok_iff self response a P) in H.
  destruct H as (d & t & ud & _ & G & _ & X). eauto.
Qed.

(** [_parse_response] succeeds exactly on an envelope that is an object,
    has a string at the provider's reply path, whose usage record is absent
    or an object, and whose reply string the extraction accepts (it raises
    on a confidence of more digits than [int] converts); the analysis is
    then the extraction of that string, with the provider's token count or
    0 when there is none. *)
Theorem parse_response_success
    (self : AIAnalyzer) (response : json) (a : analysis) :
  is_provider (provider self) ->
  (_parse_response self response = Ok a
   <-> exists d t ud,
         response = JDict d
         /\ getpath response (reply_path (provider self)) = Ok (JStr t)
         /\ dict_get d (fst (usage_keys (provider self))) (JDict [])
            = JDict ud
         /\ _extract_analysis_fields t
              (dict_get ud (snd (usage_keys (provider self))) (JInt 0))
            = Ok a).
Proof. exact (parse_response_ok_iff self response a). Qed.

(** The statement at an Anthropic envelope without usage record. *)
Lemma parse_response_success_witness :
  (self <- analyzer_of "anthropic" ;;
   _parse_response self
     (JDict [ ("content" : text,
               JList [ JDict [ ("text" : text,
                                JStr "SEVERITY: low") ] ]) ]))
  = Ok (Analysis "SEVERITY: low" FALLBACK_FIXES 50 "low" (JInt 0)).
Proof.
  destruct (analyzer_of "anthropic") as [self|e] eqn:A; [|discriminate A].
  cbn [bind].
  assert (P : provider self = "anthropic")
    by (vm_compute in A; injection A as <-; reflexivity).
  apply (parse_response_success self); [right; left; exact P|].
  rewrite P. eexists. eexists. exists [].
  split; [reflexivity|]. split; [reflexivity|]. split; [reflexivity|].
  vm_compute. reflexivity.
Defined.





(** ** One analysis *)

Lemma extract_not_both_empty (content : text) (tokens : json) (a : analysis) :
  _extract_analysis_fields content tokens = Ok a ->
  ~ (root_cause a = [] /\ suggested_fixes a = []).
Proof.
  intros A.
  destruct (extract_ok_inv _ _ _ A) as (c & _ & [(_ & _ & ->) | (N & ->)]);
    cbn [root_cause suggested_fixes].
  - intros [_ H]. discriminate H.
  - exact N.
Qed.

Lemma extract_tokens (content : text) (tokens : json) (a : analysis) :
  _extract_analysis_fields content tokens = Ok a ->
  tokens_used a = tokens.
Proof.
  intros A.
  destruct (extract_ok_inv _ _ _ A) as (c & _ & [(_ & _ & ->) | (_ & ->)]);
    reflexivity.
Qed.

Section OneAnalysis.

Variable urlopen : request -> net_outcome.
Variable json_loads : text -> loads_outcome.
Variable interpreter_text : exn -> text.
Variable elapsed : QArith_base.Q.

Variable key : option text.
Variable prov : text.
Variable m : option text.
Variable mt : Z.
Variable self : AIAnalyzer.
Hypothesis constructed : __init__ key prov m mt = Ok self.

Variable ctx : context.
Variable w : wire.

Let run := analyze urlopen json_loads interpreter_text elapsed self ctx w.

(** The request of the analysis and what [analyze] does with it. *)
Lemma analyze_unfold :
  exists req,
    build_request self (_build_prompt ctx) = Ok req
    /\ startswith (req_url req) "https://" = true
    /\ run
       = match _make_request urlopen json_loads req w with
         | (Raise e, w') =>
             (Raise (AIProviderError
                       ("API call failed: "
                        ++ str_of_exn interpreter_text e)), w')
         | (Ok response, w') =>
             match _parse_response self response with
             | Raise e => (Raise e, w')
             | Ok a =>
                 (Ok (AnalysisResult.Make (provider self) (model self)
                        (root_cause a) (suggested_fixes a) (confidence a)
                        (severity a) elapsed (tokens_used a) false), w')
             end
         end.
Proof.
  destruct (analyzer_shape _ _ _ _ _ constructed) as (_ & _ & S).
  assert (R : exists req,
                build_request self (_build_prompt ctx) = Ok req
                /\ startswith (req_url req) "https://" = true).
  { destruct (built_request _ _ _ _ _ (_build_prompt ctx) constructed)
      as [(P & B) | [(P & B) | (P & B)]]; rewrite B; eexists;
      (split; [reflexivity|]);
      destruct S as [(P' & A & _) | [(P' & A & _) | (P' & A & _)]];
      try (rewrite P in P'; discriminate P');
      cbn [_call_openai _call_anthropic _call_gemini req_url];
      rewrite A; reflexivity. }
  destruct R as (req & B & U). exists req. repeat split; auto.
  unfold run, analyze, call_provider. rewrite B. reflexivity.
Qed.

Lemma constructed_provider : is_provider (provider self).
Proof.
  destruct (analyzer_shape _ _ _ _ _ constructed)
    as (_ & _ & [(P & _) | [(P & _) | (P & _)]]); unfold is_provider; auto.
Qed.


(** A successful analysis: the body arrived and decoded, the envelope had
    the reply text at the provider's path, the extraction accepted it, and
    the result is the analyzer's provider and model with the fields
    extracted from that text, never marked as cached. *)
Theorem analyze_success (r : AnalysisResult.t) (w' : wire) :
  run = (Ok r, w') ->
  exists req body response t a,
    build_request self (_build_prompt ctx) = Ok req
    /\ urlopen req = Body body
    /\ json_loads body = Loaded response
    /\ getpath response (reply_path (provider self)) = Ok (JStr t)
    /\ _extract_analysis_fields t (AnalysisResult.tokens_used r) = Ok a
    /\ AnalysisResult.provider r = provider self
    /\ AnalysisResult.model r = model self
    /\ AnalysisResult.root_cause r = root_cause a
    /\ AnalysisResult.suggested_fixes r = suggested_fixes a
    /\ scan_confidence t = Ok (AnalysisResult.confidence r)
    /\ AnalysisResult.severity r = scan_severity t
    /\ AnalysisResult.analysis_time r = elapsed
    /\ AnalysisResult.cached r = false.
Proof.
  destruct analyze_unfold as (req & B & U & R). rewrite R.
  unfold _make_request. rewrite U. cbn [negb].
  destruct (urlopen req) as [body | code body | msg | msg] eqn:N;
    try (intros H; discriminate H).
  destruct (json_loads body) as [response | msg | msg] eqn:J;
    try (intros H; discriminate H).
  destruct (_parse_response self response) as [a|e] eqn:P;
    try (intros H; discriminate H).
  intros H. injection H as <- _.
  apply (parse_response_steps_ok self response a constructed_provider) in P.
  destruct P as (t & tok & G & X).
  exists req, body, response, t, a. cbn.
  rewrite (extract_tokens _ _ _ X), <- (extract_severity _ _ _ X).
  pose proof (extract_ok_confidence _ _ _ X) as C.
  repeat split; auto.
Qed.

(** The fields of a successful analysis keep the invariants of the result:
    a confidence in 0..100, and a root cause and a list of fixes that are
    not both empty. *)
Theorem analyze_result_invariants (r : AnalysisResult.t) (w' : wire) :
  run = (Ok r, w') ->
  (0 <= AnalysisResult.confidence r <= 100)%Z
  /\ ~ (AnalysisResult.root_cause r = []
        /\ AnalysisResult.suggested_fixes r = []).
Proof.
  destruct analyze_unfold as (req & B & U & R). rewrite R.
  destruct (_make_request urlopen json_loads req w) as [[response|e] w''];
    try (intros H; discriminate H).
  destruct (_parse_response self response) as [a|e] eqn:P;
    try (intros H; discriminate H).
  intros H. injection H as <- _.
  apply (parse_response_steps_ok self response a constructed_provider) in P.
  destruct P as (t & tok & G & X). cbn.
  split; [|exact (extract_not_both_empty _ _ _ X)].
  pose proof (extract_ok_confidence _ _ _ X) as C.
  destruct (scan_confidence_outcome t) as [(c & C' & Rg) | C'];
    rewrite C' in C; [injection C as <-; exact Rg | discriminate C].
Qed.


End OneAnalysis.

Lemma sample_analyzer_constructed :
  __init__ (Some (list_ascii_of_string "sk-test")) "openai" None 1000
  = Ok sample_analyzer.
Proof. reflexivity. Qed.


(** The statement for the default OpenAI analyzer and the sample world. *)
Lemma analyze_success_witness :
  exists r w',
    analyze sample_urlopen sample_json_loads sample_text sample_elapsed
      sample_analyzer (Context None None) [] = (Ok r, w')
    /\ AnalysisResult.model r = "gpt-4o-mini"
    /\ AnalysisResult.cached r = false.
Proof.
  destruct (analyze sample_urlopen sample_json_loads sample_text
              sample_elapsed sample_analyzer (Context None None) [])
    as [[r|e] w'] eqn:A; [|vm_compute in A; discriminate A].
  exists r, w'. split; [reflexivity|].
  destruct (analyze_success sample_urlopen sample_json_loads sample_text
              sample_elapsed _ _ _ _ _ sample_analyzer_constructed
              (Context None None) [] r w' A)
    as (req & body & response & t & a & _ & _ & _ & _ & _ & _ & M & _ & _
        & _ & _ & _ & C).
  split; [exact M | exact C].
Defined.

(** The statement for the default OpenAI analyzer and the sample world. *)
Lemma analyze_result_invariants_witness :
  exists r w',
    analyze sample_urlopen sample_json_loads sample_text sample_elapsed
      sample_analyzer (Context None None) [] = (Ok r, w')
    /\ (0 <= AnalysisResult.confidence r <= 100)%Z
    /\ ~ (AnalysisResult.root_cause r = []
          /\ AnalysisResult.suggested_fixes r = []).
Proof.
  destruct (analyze sample_urlopen sample_json_loads sample_text
              sample_elapsed sample_analyzer (Context None None) [])
    as [[r|e] w'] eqn:A; [|vm_compute in A; discriminate A].
  exists r, w'. split; [reflexivity|].
  destruct (analyze_result_invariants sample_urlopen sample_json_loads
              sample_text sample_elapsed _ _ _ _ _
              sample_analyzer_constructed (Context None None) [] r w' A)
    as (C & S).
  split; [exact C | exact S].
Defined.


(** ** Bullet lines give their items *)

Lemma any_not_nl (c : ascii) : cls_match M_ c_any c = true <-> c <> nl.
Proof.
  cbn [cls_match DOTALL M_ orb]. destruct (ascii_dec c nl); split;
    cbn [negb]; congruence.
Qed.

Lemma last_cons {A} (t : list A) (c x : A) : last (c :: t) x = last t c.
Proof.
  revert c x. induction t as [|a t IH]; intros c x; [reflexivity|].
  change (last (c :: a :: t) x) with (last (a :: t) x).
  rewrite !IH. reflexivity.
Qed.

Lemma prev_after_last (x : ascii) (t : text) :
  prev_after (Some x) t = Some (last t x).
Proof.
  unfold prev_after. revert x. induction t as [|c t IH]; intros x;
    [reflexivity|].
  cbn [fold_left]. rewrite IH, last_cons. reflexivity.
Qed.

Lemma last_in {A} (t : list A) (x : A) : In (last t x) (x :: t).
Proof.
  revert x. induction t as [|c t IH]; intros x; [left; reflexivity|].
  right. rewrite last_cons. apply IH.
Qed.

Lemma item_head (it : text) :
  is_item it ->
  exists x it', it = x :: it' /\ isspace x = false /\ x <> nl
                /\ Forall (fun c => c <> nl) it'.
Proof.
  intros (N & S & L). destruct it as [|x it']; [congruence|].
  exists x, it'. split; [reflexivity|].
  split; [exact (strip_head _ _ _ S)|].
  split; [intros ->; apply L; left; reflexivity|].
  apply Forall_forall. intros c Hc ->. apply L. right. exact Hc.
Qed.

Lemma run_then_stop {A} (p : A -> bool) (a rest : list A) :
  Forall (fun c => p c = true) a ->
  (rest = [] \/ exists c r, rest = c :: r /\ p c = false) ->
  takewhile p (a ++ rest) = a /\ dropwhile p (a ++ rest) = rest.
Proof.
  intros Fa R.
  rewrite takewhile_app_all, dropwhile_app_all by exact Fa.
  destruct R as [-> | (c & r & -> & Hc)]; cbn [takewhile dropwhile];
    [|rewrite Hc]; rewrite app_nil_r; auto.
Qed.

(** The group [(.+)] reads an item to the end of its line. *)
Lemma bullet_group (p : option ascii) (it rest : text) (g : option text) :
  is_item it -> line_end rest ->
  exists q,
    bt M_ BULLET_GROUP Some (MState p (it ++ rest) g)
    = Some (MState (Some q) rest (Some it)) /\ q <> nl.
Proof.
  intros I E. destruct (item_head it I) as (x & it' & -> & _ & Nx & Nl).
  assert (Fa : Forall (fun c => cls_match M_ c_any c = true) it').
  { apply Forall_impl with (2 := Nl). intros c. apply any_not_nl. }
  assert (R : rest = [] \/ exists c r, rest = c :: r
                                       /\ cls_match M_ c_any c = false).
  { destruct E as [-> | (r & ->)]; [left; reflexivity|].
    right. exists nl, r. split; reflexivity. }
  destruct (run_then_stop _ it' rest Fa R) as (T & D).
  exists (last it' x). split.
  - unfold BULLET_GROUP. cbn [bt]. unfold rep. cbn [m_rest m_grp m_prev app].
    rewrite (proj2 (any_not_nl x) Nx).
    apply rep_star_greedy_max. rewrite T, D, prev_after_last.
    f_equal. f_equal. f_equal.
    change (x :: it' ++ rest) with ((x :: it') ++ rest).
    apply firstn_app_exact.
  - intros Q. pose proof (last_in it' x) as H. rewrite Q in H.
    destruct H as [H | H]; [contradiction|].
    rewrite Forall_forall in Nl. exact (Nl nl H eq_refl).
Qed.

(** The whitespace after the marker, then the group. *)
Lemma bullet_space_group (p : option ascii) (it rest : text)
    (g : option text) :
  is_item it -> line_end rest ->
  exists q,
    bt M_ BULLET_SPACES (bt M_ BULLET_GROUP Some)
       (MState p (" "%char :: it ++ rest) g)
    = Some (MState (Some q) rest (Some it)) /\ q <> nl.
Proof.
  intros I E. destruct (bullet_group (Some " "%char) it rest g I E)
    as (q & G & Nq).
  exists q. split; [|exact Nq].
  destruct (item_head it I) as (x & it' & -> & Sx & _ & _).
  unfold BULLET_SPACES. cbn [bt]. unfold rep. cbn [m_rest m_grp m_prev].
  apply rep_star_greedy_max.
  cbn [takewhile dropwhile app cls_match]. 
  change (isspace " ") with true. cbn iota. rewrite Sx.
  cbn [prev_after fold_left]. exact G.
Qed.

(** The marker, then the whitespace and the group. *)
Lemma bullet_mark (p : option ascii) (mk it rest : text) (g : option text) :
  is_marker mk -> is_item it -> line_end rest ->
  exists q,
    bt M_ BULLET_MARK (bt M_ BULLET_SPACES (bt M_ BULLET_GROUP Some))
       (MState p (mk ++ " " ++ it ++ rest) g)
    = Some (MState (Some q) rest (Some it)) /\ q <> nl.
Proof.
  intros M I E.
  destruct M as [-> | [-> | (ds & -> & N & Fd)]].
  - destruct (bullet_space_group (Some "-"%char) it rest g I E)
      as (q & G & Nq).
    exists q. split; [|exact Nq]. unfold BULLET_MARK. cbn [bt].
    unfold rep at 1. cbn [m_rest m_grp m_prev app list_ascii_of_string].
    cbn [cls_match]. change (isdigit "-") with false. cbn iota.
    cbn [orelse IGNORECASE M_].
    destruct (ascii_dec "-" "-"); [|congruence]. rewrite G. reflexivity.
  - destruct (bullet_space_group (Some "*"%char) it rest g I E)
      as (q & G & Nq).
    exists q. split; [|exact Nq]. unfold BULLET_MARK. cbn [bt].
    unfold rep at 1. cbn [m_rest m_grp m_prev app list_ascii_of_string].
    cbn [cls_match]. change (isdigit "*") with false. cbn iota.
    cbn [orelse IGNORECASE M_].
    destruct (ascii_dec "*" "-") as [X|_]; [discriminate X|].
    destruct (ascii_dec "*" "*"); [|congruence]. cbn [orelse].
    rewrite G. reflexivity.
  - destruct (bullet_space_group (Some "."%char) it rest g I E)
      as (q & G & Nq).
    exists q. split; [|exact Nq].
    destruct ds as [|d ds']; [congruence|].
    inversion Fd as [|? ? Hd Fd']; subst.
    assert (R : "." ++ " " ++ it ++ rest = []
                \/ exists c r, "." ++ " " ++ it ++ rest = c :: r
                               /\ isdigit c = false).
    { right. eexists. eexists. split; reflexivity. }
    destruct (run_then_stop isdigit ds' _ Fd' R) as (T & D).
    unfold BULLET_MARK. cbn [bt]. unfold rep at 1.
    cbn [m_rest m_grp m_prev]. rewrite <- !app_assoc.
    cbn [app cls_match]. rewrite Hd.
    change (fun x : ascii => isdigit x) with isdigit.
    erewrite rep_star_greedy_max; [reflexivity|].
    rewrite T, D. cbn [m_rest app list_ascii_of_string cls_match
                         IGNORECASE M_ m_grp].
    destruct (ascii_dec "." "."); [|congruence]. exact G.
Qed.

Lemma marker_head (mk : text) :
  is_marker mk ->
  exists c mk', mk = c :: mk' /\ isspace c = false /\ c <> nl.
Proof.
  intros [-> | [-> | (ds & -> & N & Fd)]].
  - eexists. eexists. split; [reflexivity|]. split; [reflexivity|discriminate].
  - eexists. eexists. split; [reflexivity|]. split; [reflexivity|discriminate].
  - destruct ds as [|d ds']; [congruence|].
    inversion Fd as [|? ? Hd _]; subst.
    exists d, (ds' ++ "."). split; [reflexivity|].
    destruct d as [[] [] [] [] [] [] [] []]; try discriminate Hd;
      (split; [reflexivity | discriminate]).
Qed.

(** From the start of a bullet line on. *)
Lemma bullet_line_from (p : option ascii) (mk it rest : text)
    (g : option text) :
  is_marker mk -> is_item it -> line_end rest ->
  exists q,
    bt M_ BULLET_SPACES
       (bt M_ BULLET_MARK (bt M_ BULLET_SPACES (bt M_ BULLET_GROUP Some)))
       (MState p (mk ++ " " ++ it ++ rest) g)
    = Some (MState (Some q) rest (Some it)) /\ q <> nl.
Proof.
  intros M I E. destruct (bullet_mark p mk it rest g M I E) as (q & G & Nq).
  exists q. split; [|exact Nq].
  destruct (marker_head mk M) as (c & mk' & Em & Sc & _).
  unfold BULLET_SPACES at 1. cbn [bt]. unfold rep at 1.
  cbn [m_rest m_grp m_prev].
  apply rep_star_greedy_max.
  assert (T : takewhile (cls_match M_ c_space) (mk ++ " " ++ it ++ rest) = []
              /\ dropwhile (cls_match M_ c_space) (mk ++ " " ++ it ++ rest)
                 = mk ++ " " ++ it ++ rest).
  { rewrite Em. cbn [app takewhile dropwhile cls_match]. rewrite Sc. auto. }
  destruct T as (-> & ->). exact G.
Qed.

(** A bullet line at the start of the text, or after a newline that a
    character other than a newline comes before. *)
Lemma bullet_match_start (mk it rest : text) :
  is_marker mk -> is_item it -> line_end rest ->
  exists q,
    match_here M_ RE_BULLET None (mk ++ " " ++ it ++ rest)
    = Some (MState (Some q) rest (Some it)) /\ q <> nl.
Proof.
  intros M I E.
  destruct (bullet_line_from None mk it rest None M I E) as (q & G & Nq).
  exists q. split; [|exact Nq].
  unfold match_here.
  change (bt M_ RE_BULLET Some ?st)
    with (orelse
            (if at_bol M_ st
             then bt M_ BULLET_SPACES
                    (bt M_ BULLET_MARK
                       (bt M_ BULLET_SPACES (bt M_ BULLET_GROUP Some))) st
             else None)
            (bt M_ (r_cls (c_chr nl))
               (bt M_ BULLET_SPACES
                  (bt M_ BULLET_MARK
                     (bt M_ BULLET_SPACES (bt M_ BULLET_GROUP Some)))) st)).
  cbn [at_bol m_prev]. rewrite G. reflexivity.
Qed.

Lemma bullet_match_next (c : ascii) (mk it rest : text) :
  c <> nl ->
  is_marker mk -> is_item it -> line_end rest ->
  exists q,
    match_here M_ RE_BULLET (Some c) (nl :: mk ++ " " ++ it ++ rest)
    = Some (MState (Some q) rest (Some it)) /\ q <> nl.
Proof.
  intros Nc M I E.
  destruct (bullet_line_from (Some nl) mk it rest None M I E)
    as (q & G & Nq).
  exists q. split; [|exact Nq].
  unfold match_here.
  change (bt M_ RE_BULLET Some ?st)
    with (orelse
            (if at_bol M_ st
             then bt M_ BULLET_SPACES
                    (bt M_ BULLET_MARK
                       (bt M_ BULLET_SPACES (bt M_ BULLET_GROUP Some))) st
             else None)
            (bt M_ (r_cls (c_chr nl))
               (bt M_ BULLET_SPACES
                  (bt M_ BULLET_MARK
                     (bt M_ BULLET_SPACES (bt M_ BULLET_GROUP Some)))) st)).
  cbn [at_bol m_prev MULTILINE M_ andb].
  destruct (ascii_dec c nl); [contradiction|]. cbn [orelse bt m_rest m_grp].
  cbn [cls_match IGNORECASE M_].
  destruct (ascii_dec nl nl); [|congruence]. exact G.
Qed.

Lemma line_end_lines_after (bs : list (text * text)) :
  line_end (lines_after bs).
Proof.
  destruct bs as [|b bs]; [left; reflexivity|].
  right. eexists. reflexivity.
Qed.

Lemma join_bullet_lines (b : text * text) (bs : list (text * text)) :
  join [nl] (map bullet_line (b :: bs)) = bullet_line b ++ lines_after bs.
Proof.
  revert b. induction bs as [|b' bs IH]; intros b.
  - cbn [map join lines_after List.concat]. rewrite app_nil_r. reflexivity.
  - change (join [nl] (map bullet_line (b :: b' :: bs)))
      with (bullet_line b ++ [nl] ++ join [nl] (map bullet_line (b' :: bs))).
    rewrite IH. reflexivity.
Qed.

Lemma findall_lines_after (bs : list (text * text)) :
  Forall (fun b => is_marker (fst b) /\ is_item (snd b)) bs ->
  forall fuel c,
    c <> nl -> len (lines_after bs) < fuel ->
    findall_from M_ fuel RE_BULLET (Some c) (lines_after bs) = map snd bs.
Proof.
  induction 1 as [|[mk it] bs [M I] _ IH]; intros fuel c Nc L.
  - destruct fuel as [|fuel]; [inversion L|].
    cbn [lines_after map List.concat findall_from].
    replace (match_here M_ RE_BULLET (Some c) []) with (@None mstate);
      [reflexivity|].
    unfold match_here.
    change (bt M_ RE_BULLET Some ?st)
      with (orelse
              (if at_bol M_ st
               then bt M_ BULLET_SPACES
                      (bt M_ BULLET_MARK
                         (bt M_ BULLET_SPACES (bt M_ BULLET_GROUP Some))) st
               else None)
              (bt M_ (r_cls (c_chr nl))
                 (bt M_ BULLET_SPACES
                    (bt M_ BULLET_MARK
                       (bt M_ BULLET_SPACES (bt M_ BULLET_GROUP Some)))) st)).
    cbn [at_bol m_prev MULTILINE M_ andb].
    destruct (ascii_dec c nl); [contradiction|]. reflexivity.
  - cbn [fst snd] in M, I.
    change (lines_after ((mk, it) :: bs))
      with (nl :: (mk ++ " " ++ it) ++ lines_after bs) in *.
    rewrite <- !app_assoc in *.
    destruct fuel as [|fuel]; [inversion L|].
    destruct (bullet_match_next c mk it (lines_after bs) Nc M I
                (line_end_lines_after bs)) as (q & G & Nq).
    cbn [findall_from]. rewrite G. cbn [group1 m_grp m_rest m_prev map snd].
    replace (len (lines_after bs)
             <? len (nl :: mk ++ " " ++ it ++ lines_after bs)) with true.
    + f_equal. apply IH; [exact Nq|].
      cbn [Datatypes.length] in L. rewrite !length_app in L. lia.
    + symmetry. apply Nat.ltb_lt. cbn [Datatypes.length].
      rewrite !length_app. lia.
Qed.

Lemma findall_bullet_lines (bs : list (text * text)) :
  Forall (fun b => is_marker (fst b) /\ is_item (snd b)) bs ->
  re_findall M_ RE_BULLET (join [nl] (map bullet_line bs)) = map snd bs.
Proof.
  intros F. destruct bs as [|[mk it] bs]; [reflexivity|].
  inversion F as [|? ? [M I] F']; subst. cbn [fst snd] in M, I.
  rewrite join_bullet_lines. unfold re_findall, bullet_line. cbn [fst snd].
  rewrite <- !app_assoc.
  destruct (bullet_match_start mk it (lines_after bs) M I
              (line_end_lines_after bs)) as (q & G & Nq).
  cbn [findall_from]. rewrite G. cbn [group1 m_grp m_rest m_prev map snd].
  replace (len (lines_after bs)
           <? len (mk ++ " " ++ it ++ lines_after bs)) with true.
  - f_equal. apply findall_lines_after; [exact F' | exact Nq|].
    rewrite !length_app. destruct (marker_head mk M) as (c & mk' & -> & _).
    cbn [Datatypes.length]. lia.
  - symmetry. apply Nat.ltb_lt. rewrite !length_app.
    destruct (marker_head mk M) as (c & mk' & -> & _).
    cbn [Datatypes.length]. lia.
Qed.

Lemma items_kept (bs : list (text * text)) :
  Forall (fun b => is_marker (fst b) /\ is_item (snd b)) bs ->
  filter truthy (map strip (map snd bs)) = map snd bs.
Proof.
  induction 1 as [|[mk it] bs [_ (N & S & _)] _ IH]; [reflexivity|].
  cbn [map snd filter] in *. rewrite S, IH.
  destruct it; [congruence | reflexivity].
Qed.

(** The items of a bulleted list: when each line of the fixes section is a
    marker (a hyphen, an asterisk, or a number with a full stop), one space
    and an item, the suggested fixes are exactly the items, in their
    order. *)
Theorem bullet_lines_give_items (bs : list (text * text)) :
  Forall (fun b => is_marker (fst b) /\ is_item (snd b)) bs ->
  fixes_of (join [nl] (map bullet_line bs)) = map snd bs.
Proof.
  intros F. unfold fixes_of. cbv zeta.
  rewrite (findall_bullet_lines bs F). exact (items_kept bs F).
Qed.

Lemma bullet_lines_give_items_witness :
  fixes_of (join [nl] (map bullet_line
     [("1." : text, "Install the package" : text);
      ("-" : text, "Retry the build" : text);
      ("*" : text, "Pin node 18" : text)]))
  = ["Install the package" : text; "Retry the build" : text;
     "Pin node 18" : text].
Proof.
  apply (bullet_lines_give_items
     [("1." : text, "Install the package" : text);
      ("-" : text, "Retry the build" : text);
      ("*" : text, "Pin node 18" : text)]).
  assert (I : forall it : text,
             it <> [] -> strip it = it ->
             forallb (fun c => negb (if ascii_dec c nl then true else false))
                     it = true ->
             is_item it).
  { intros it N S L. split; [exact N|]. split; [exact S|].
    intros H. rewrite forallb_forall in L. specialize (L nl H).
    destruct (ascii_dec nl nl); [discriminate L | congruence]. }
  constructor; [|constructor; [|constructor; [|constructor]]];
    cbn [fst snd]; (split; [|apply I; [intros H; discriminate H
                                      | reflexivity | reflexivity]]).
  - right. right. exists ("1" : text).
    split; [reflexivity|]. split; [intros H; discriminate H|].
    repeat constructor.
  - left. reflexivity.
  - right. left. reflexivity.
Defined.
